(** * DevExtreme renovation widgets: canvas resolution and scroll offsets

    Two pieces of the repository are embedded here:

    - [BaseWidget]: the canvas resolution exercised by
      js/renovation/viz/core/__tests__/base_widget.test.tsx (the widget
      itself, base_widget.tsx, is not among the sources; its [setCanvas]
      is modelled from the specification and pinned by the tests);
    - [Scrollable]: js/renovation/ui/scroll_view/_toDelete/ui.scrollable.js,
      translated method by method as state-passing code over the widget
      instance, its scroll strategy and the container DOM element.

    Numbers are pixels and are modelled as integers ([Z]); a JavaScript
    [undefined] is [None]. *)

From Stdlib Require Import ZArith String List Bool Lia.
Import ListNotations.
Local Open Scope string_scope.
Local Open Scope Z_scope.

(* ===================================================================== *)
(** * Part I: definitions                                                 *)
(* ===================================================================== *)

Module BaseWidget.

(** [Canvas] of viz/core/common/types.d.ts, as the tests build it. *)
Record Canvas : Type := mkCanvas {
  width : Z;
  height : Z;
  left : Z;
  right : Z;
  top : Z;
  bottom : Z
}.

(** base_widget.test.tsx, lines 16-18. *)
Definition DEFAULT_CANVAS : Canvas :=
  {| width := 0; height := 0; left := 0; right := 0; top := 0; bottom := 0 |}.

(** [props.size]: either field may be absent. *)
Record Size : Type := mkSize {
  size_width : option Z;
  size_height : option Z
}.

(** [props.margin]: every field may be absent. *)
Record Margin : Type := mkMargin {
  margin_left : option Z;
  margin_top : option Z;
  margin_right : option Z;
  margin_bottom : option Z
}.

(** What the tests make [getElementComputedStyle] return for the
    container, with ['400px'] read as [400]. *)
Record ComputedStyle : Type := mkStyle {
  style_width : Z;
  paddingLeft : Z;
  paddingRight : Z;
  style_height : Z;
  paddingTop : Z;
  paddingBottom : Z
}.

(** An absent [size] or [margin] prop. *)
Definition noSize : Size := mkSize None None.
Definition noMargin : Margin := mkMargin None None None None.

(** Modelled from the spec: the container measurement of base_widget.tsx
    is missing; "container measured content-box dimension (outer size
    minus padding on both sides of that axis)", a missing measurement
    counting as no valid measurement. *)
Definition contentWidth (container : option ComputedStyle) : Z :=
  match container with
  | Some s => style_width s - paddingLeft s - paddingRight s
  | None => 0
  end.

Definition contentHeight (container : option ComputedStyle) : Z :=
  match container with
  | Some s => style_height s - paddingTop s - paddingBottom s
  | None => 0
  end.

(** Modelled from the spec: step 1 of the missing [setCanvas], "(a)
    explicit size.width/size.height if present and non-negative; else (b)
    container measured content-box dimension if positive; else (c)
    defaultCanvas.width/height". *)
Definition pickDimension (explicit : option Z) (measured dflt : Z) : Z :=
  match explicit with
  | Some v =>
      if 0 <=? v then v
      else if 0 <? measured then measured else dflt
  | None => if 0 <? measured then measured else dflt
  end.

(** Modelled from the spec: step 3 of the missing [setCanvas], "explicit
    margin value if present, else the corresponding defaultCanvas inset"
    (the final "else 0" is the inset of [DEFAULT_CANVAS]). *)
Definition pickInset (explicit : option Z) (dflt : Z) : Z :=
  match explicit with
  | Some v => v
  | None => dflt
  end.

Definition isNegative (field : option Z) : bool :=
  match field with
  | Some v => v <? 0
  | None => false
  end.

(** Modelled from the spec: the validity rule of the missing [setCanvas]
    (step 2), "if the resolved width or height would be negative (e.g.,
    explicit size supplied a negative value ...)", together with the
    property "for all size with a negative field, resolve returns
    defaultCanvas verbatim": a negative field of [size] invalidates the
    whole candidate set, and so does a negative candidate. *)
Definition sizeIsInvalid (size : Size) (w h : Z) : bool :=
  isNegative (size_width size) || isNegative (size_height size)
  || (w <? 0) || (h <? 0).

(** Modelled from the spec: step 4 of the missing [setCanvas], margins
    that leave no room on an axis.  The test "should get default canvas
    from props (if any side is negative)" (lines 300-329) fixes the
    boundary: insets that add up to exactly the dimension (200 + 400
    against 600, 300 + 100 against 400) already fall back. *)
Definition noRoom (dimension inset1 inset2 : Z) : bool :=
  dimension - inset1 - inset2 <=? 0.

(** Modelled from the spec: [setCanvas] of [BaseWidget]
    (js/renovation/viz/core/base_widget.tsx, not among the sources),
    following steps 1-5 of the canvas resolver:
    [setCanvas size container margin defaultCanvas] is the value the
    tests read back from [widget.props.canvas]. *)
Definition setCanvas (size : Size) (container : option ComputedStyle)
    (margin : Margin) (defaultCanvas : Canvas) : Canvas :=
  let w := pickDimension (size_width size) (contentWidth container)
             (width defaultCanvas) in
  let h := pickDimension (size_height size) (contentHeight container)
             (height defaultCanvas) in
  if sizeIsInvalid size w h then defaultCanvas
  else
    let canvas :=
      {| width := w;
         height := h;
         left := pickInset (margin_left margin) (left defaultCanvas);
         right := pickInset (margin_right margin) (right defaultCanvas);
         top := pickInset (margin_top margin) (top defaultCanvas);
         bottom := pickInset (margin_bottom margin) (bottom defaultCanvas) |} in
    if noRoom (width canvas) (left canvas) (right canvas)
       || noRoom (height canvas) (top canvas) (bottom canvas)
    then defaultCanvas
    else canvas.

(** The precedence of the specification, in its own words: the explicit
    field if present and non-negative; otherwise the measured dimension
    if positive; otherwise the default one.  Kept apart from
    [pickDimension] so that the two can be compared. *)
Inductive precedence (explicit : option Z) (measured dflt : Z) : Z -> Prop :=
| precedence_explicit v :
    explicit = Some v -> 0 <= v -> precedence explicit measured dflt v
| precedence_measured :
    (forall v, explicit = Some v -> v < 0) -> 0 < measured ->
    precedence explicit measured dflt measured
| precedence_default :
    (forall v, explicit = Some v -> v < 0) -> measured <= 0 ->
    precedence explicit measured dflt dflt.

(** Inputs of the tests of [describe('setCanvas')]. *)
Definition canvas_500_300 : Canvas := mkCanvas 500 300 10 20 30 40.
Definition style_400_300 : ComputedStyle := mkStyle 400 0 0 300 0 0.

End BaseWidget.

Module Scrollable.

(** ** Values *)

(** ui.scrollable.js, lines 18-19. *)
Definition VERTICAL : string := "vertical".
Definition HORIZONTAL : string := "horizontal".

(** [a !== b] on strings. *)
Definition differs (a b : string) : bool := negb (String.eqb a b).

(** A [{ left, top }] object whose fields may be [undefined]: the result
    of [_normalizeLocation] and the distance handed to the strategy. *)
Record Loc : Type := mkLoc {
  left : option Z;
  top : option Z
}.

(** A [{ left, top }] object of two numbers: [strategy.location()],
    [_getMaxOffset()], [scrollOffset()].  The numbers are whole pixels;
    where a law needs sums and differences to be exact it is stated for
    [safePixel] values, on which the arithmetic of the code is that of
    [Z]. *)
Record Point : Type := mkPoint {
  point_left : Z;
  point_top : Z
}.

(** The argument of [scrollTo] and [scrollBy]: a number, or a plain
    object with any of the fields [left], [x], [top], [y]. *)
Inductive Location : Type :=
| Scalar (location : Z)
| PlainObject (location_left location_x location_top location_y : option Z).

(** The object literal [{ left: l, top: t }]. *)
Definition object (l t : option Z) : Location := PlainObject l None t None.

(** Modelled from the spec: [isDefined] and [ensureDefined] are imported
    from core/utils and not among the sources; "extract left preferring
    left over x", a field absent in both spellings staying undefined. *)
Definition isDefined (value : option Z) : bool :=
  match value with
  | Some _ => true
  | None => false
  end.

Definition ensureDefined (value defaultValue : option Z) : option Z :=
  if isDefined value then value else defaultValue.

(** Unary minus and binary minus of JavaScript numbers; with an undefined
    operand the result is NaN, which is not a pixel value and is
    written [None]. *)
Definition negate (value : option Z) : option Z := option_map Z.opp value.

Definition minus (a b : option Z) : option Z :=
  match a, b with
  | Some a, Some b => Some (a - b)
  | _, _ => None
  end.

(** [!value]: [undefined], NaN and [0] are falsy. *)
Definition falsy (value : option Z) : bool :=
  match value with
  | Some v => v =? 0
  | None => true
  end.

Definition toLoc (p : Point) : Loc :=
  {| left := Some (point_left p); top := Some (point_top p) |}.

(** ** The collaborators *)

(** The fields the widget reads from [this._container().get(0)]. *)
Module Element.
Record t : Type := make {
  scrollWidth : Z;
  clientWidth : Z;
  scrollHeight : Z;
  clientHeight : Z;
  scrollLeft : Z
}.
End Element.

(** [getWindow()], when [hasWindow()]; the ratio is only ever compared
    with [===], so an integer code stands for it. *)
Record Window : Type := mkWindow {
  devicePixelRatio : Z
}.

(** Everything outside the widget instance: the window, the container
    element and the scroll strategy [this._strategy] (created by code
    that is not in this file).  [E] is the state of that outside world;
    the strategy's methods are transitions of it. *)
Class Host (E : Type) : Type := {
  window : E -> option Window;
  element : E -> Element.t;
  location : E -> Point;
  scaleLeft : E -> Z -> Z;
  scaleTop : E -> Z -> Z;
  render : E -> E;
  update_strategy : E -> E;
  updateBounds : E -> E;
  scrollBy_strategy : Loc -> E -> E;
  disabledChanged : E -> E;
  dispose : E -> E
}.

(** Calls that leave the widget, newest first. *)
Inductive Call : Type :=
| StrategyRender
| StrategyUpdate
| StrategyUpdateBounds
| StrategyLocation
| StrategyApplyScaleRatio
| StrategyScrollBy (distance : Loc)
| StrategyDisabledChanged
| StrategyDispose
| CallBase (method : string)
| CreateActions
| Invalidate
| UpdateAllowedDirection.

(** ** The widget instance *)

(** The options the file reads. *)
Record Options : Type := mkOptions {
  rtlEnabled : bool;
  direction : string;
  disabled : bool;
  useNative : bool;
  updateManually : bool;
  useSimulatedScrollbar : bool
}.

(** [this._rtlConfig] (lines 86-90); [skipUpdating] starts undefined,
    which is falsy. *)
Record RtlConfig : Type := mkRtlConfig {
  scrollRight : Z;
  clientWidth : Z;
  windowPixelRatio : Z;
  skipUpdating : bool
}.

Record Widget (E : Type) : Type := mkWidget {
  options : Options;
  initialUseSimulatedScrollbar : bool;
  _locked : bool;
  _rtlConfig : RtlConfig;
  _savedScrollOffset : option Point;
  host : E;
  calls : list Call
}.

Arguments mkWidget {E}.
Arguments options {E}.
Arguments initialUseSimulatedScrollbar {E}.
Arguments _locked {E}.
Arguments _rtlConfig {E}.
Arguments _savedScrollOffset {E}.
Arguments host {E}.
Arguments calls {E}.

(** An assignment made by [this.option(name, value)]. *)
Inductive OptionUpdate : Type :=
| set_rtlEnabled (value : bool)
| set_direction (value : string)
| set_disabled (value : bool)
| set_useNative (value : bool)
| set_updateManually (value : bool)
| set_useSimulatedScrollbar (value : bool)
| set_other (name : string).

Definition optionName (u : OptionUpdate) : string :=
  match u with
  | set_rtlEnabled _ => "rtlEnabled"
  | set_direction _ => "direction"
  | set_disabled _ => "disabled"
  | set_useNative _ => "useNative"
  | set_updateManually _ => "updateManually"
  | set_useSimulatedScrollbar _ => "useSimulatedScrollbar"
  | set_other name => name
  end.

Definition assign (u : OptionUpdate) (o : Options) : Options :=
  match u with
  | set_rtlEnabled v =>
      mkOptions v (direction o) (disabled o) (useNative o)
        (updateManually o) (useSimulatedScrollbar o)
  | set_direction v =>
      mkOptions (rtlEnabled o) v (disabled o) (useNative o)
        (updateManually o) (useSimulatedScrollbar o)
  | set_disabled v =>
      mkOptions (rtlEnabled o) (direction o) v (useNative o)
        (updateManually o) (useSimulatedScrollbar o)
  | set_useNative v =>
      mkOptions (rtlEnabled o) (direction o) (disabled o) v
        (updateManually o) (useSimulatedScrollbar o)
  | set_updateManually v =>
      mkOptions (rtlEnabled o) (direction o) (disabled o) (useNative o)
        v (useSimulatedScrollbar o)
  | set_useSimulatedScrollbar v =>
      mkOptions (rtlEnabled o) (direction o) (disabled o) (useNative o)
        (updateManually o) v
  | set_other _ => o
  end.

(** ** The methods

    A method is a function from the state before the call to its result
    and the state after it. *)

Section Methods.

Context {E : Type} {H : Host E}.

Definition M (A : Type) : Type := Widget E -> A * Widget E.

Definition ret {A : Type} (a : A) : M A := fun w => (a, w).

Definition bind {A B : Type} (m : M A) (k : A -> M B) : M B :=
  fun w => let (a, w') := m w in k a w'.

Notation "x <- m ;; k" := (bind m (fun x => k))
  (at level 61, m at next level, right associativity).
Notation "m ;; k" := (bind m (fun _ => k))
  (at level 61, right associativity).

(** The state a method leaves behind. *)
Definition exec {A : Type} (m : M A) (w : Widget E) : Widget E := snd (m w).

(** [this.option(name)]. *)
Definition readOption {A : Type} (field : Options -> A) : M A :=
  fun w => (field (options w), w).

Definition rtlConfig : M RtlConfig := fun w => (_rtlConfig w, w).

Definition set_rtlConfig (c : RtlConfig) : M unit :=
  fun w => (tt, mkWidget (options w) (initialUseSimulatedScrollbar w)
                  (_locked w) c (_savedScrollOffset w) (host w) (calls w)).

Definition set_scrollRight (v : Z) : M unit :=
  c <- rtlConfig ;;
  set_rtlConfig (mkRtlConfig v (clientWidth c) (windowPixelRatio c) (skipUpdating c)).

Definition set_skipUpdating (v : bool) : M unit :=
  c <- rtlConfig ;;
  set_rtlConfig (mkRtlConfig (scrollRight c) (clientWidth c) (windowPixelRatio c) v).

Definition set_locked (v : bool) : M unit :=
  fun w => (tt, mkWidget (options w) (initialUseSimulatedScrollbar w)
                  v (_rtlConfig w) (_savedScrollOffset w) (host w) (calls w)).

Definition set_savedScrollOffset (v : option Point) : M unit :=
  fun w => (tt, mkWidget (options w) (initialUseSimulatedScrollbar w)
                  (_locked w) (_rtlConfig w) v (host w) (calls w)).

Definition set_options (f : Options -> Options) : M unit :=
  fun w => (tt, mkWidget (f (options w)) (initialUseSimulatedScrollbar w)
                  (_locked w) (_rtlConfig w) (_savedScrollOffset w) (host w) (calls w)).

(** A call that leaves the widget: logged, and the outside world moves. *)
Definition call (c : Call) (effect : E -> E) : M unit :=
  fun w => (tt, mkWidget (options w) (initialUseSimulatedScrollbar w)
                  (_locked w) (_rtlConfig w) (_savedScrollOffset w) (effect (host w))
                  (c :: calls w)).

(** Methods of the base classes ([callBase], [_createActions],
    [_invalidate]) and [_updateAllowedDirection] are not in this file;
    the call is logged and nothing else is known about it. *)
Definition callBase (method : string) : M unit := call (CallBase method) id.
Definition _createActions : M unit := call CreateActions id.
Definition _invalidate : M unit := call Invalidate id.
Definition _updateAllowedDirection : M unit := call UpdateAllowedDirection id.

Definition hasWindow : M bool :=
  fun w => (match window (host w) with Some _ => true | None => false end, w).

(** Lines 29-33.  [this.option(name, value)] with a new value comes back
    through [_optionChanged], whose case for this name invalidates. *)
Definition _setUseSimulatedScrollbar : M unit :=
  fun w =>
    if negb (initialUseSimulatedScrollbar w) then
      let value := negb (useNative (options w)) in
      if Bool.eqb (useSimulatedScrollbar (options w)) value then (tt, w)
      else (set_options (assign (set_useSimulatedScrollbar value)) ;; _invalidate) w
    else (tt, w).

(** Lines 41-45. *)
Definition _getWindowDevicePixelRatio : M Z :=
  fun w => (match window (host w) with
            | Some win => devicePixelRatio win
            | None => 1
            end, w).

(** Lines 272-274, followed by [.get(0)]. *)
Definition _container : M Element.t := fun w => (element (host w), w).

(** Lines 94-96. *)
Definition _isHorizontalAndRtlEnabled : M bool :=
  rtl <- readOption rtlEnabled ;;
  d <- readOption direction ;;
  ret (rtl && differs d VERTICAL).

(** Lines 120-127. *)
Definition _getMaxOffset : M Point :=
  c <- _container ;;
  ret {| point_left := Element.scrollWidth c - Element.clientWidth c;
         point_top := Element.scrollHeight c - Element.clientHeight c |}.

(** Lines 129-131. *)
Definition _updateBounds : M unit := call StrategyUpdateBounds updateBounds.

(** Lines 133-143. *)
Definition _updateRtlConfig : M unit :=
  rtl <- _isHorizontalAndRtlEnabled ;;
  c <- rtlConfig ;;
  if rtl && negb (skipUpdating c) then
    el <- _container ;;
    ratio <- _getWindowDevicePixelRatio ;;
    (if (windowPixelRatio c =? ratio) && (clientWidth c =? Element.clientWidth el)
     then max <- _getMaxOffset ;;
          set_scrollRight (point_left max - Element.scrollLeft el)
     else ret tt) ;;
    c <- rtlConfig ;;
    set_rtlConfig (mkRtlConfig (scrollRight c) (Element.clientWidth el)
                     (windowPixelRatio c) (skipUpdating c)) ;;
    c <- rtlConfig ;;
    set_rtlConfig (mkRtlConfig (scrollRight c) (clientWidth c) ratio (skipUpdating c))
  else ret tt.

(** Lines 226-228. *)
Definition _location : M Point :=
  fun w => (location (host w),
            mkWidget (options w) (initialUseSimulatedScrollbar w) (_locked w)
              (_rtlConfig w) (_savedScrollOffset w) (host w)
              (StrategyLocation :: calls w)).

(** Modelled from the spec: [scrollOffset] and [scrollLeft] are called
    in this file but defined elsewhere; "scroll offsets are stored as
    negative of logical position". *)
Definition scrollOffset : M Point :=
  l <- _location ;;
  ret {| point_left := - point_left l; point_top := - point_top l |}.

Definition scrollLeft : M Z :=
  o <- scrollOffset ;;
  ret (point_left o).

(** Modelled from the spec: [_applyScaleRatio] belongs to the strategy;
    it rescales the fields that are defined, each axis by its own ratio. *)
Definition _applyScaleRatio (l : Loc) : M Loc :=
  fun w => ({| left := option_map (scaleLeft (host w)) (left l);
               top := option_map (scaleTop (host w)) (top l) |},
            mkWidget (options w) (initialUseSimulatedScrollbar w) (_locked w)
              (_rtlConfig w) (_savedScrollOffset w) (host w)
              (StrategyApplyScaleRatio :: calls w)).

(** Lines 230-245. *)
Definition _normalizeLocation (location : Location) : M Loc :=
  match location with
  | PlainObject location_left location_x location_top location_y =>
      let left := ensureDefined location_left location_x in
      let top := ensureDefined location_top location_y in
      ret {| left := if isDefined left then negate left else None;
             top := if isDefined top then negate top else None |}
  | Scalar location =>
      direction <- readOption direction ;;
      ret {| left := if differs direction VERTICAL then Some (- location) else None;
             top := if differs direction HORIZONTAL then Some (- location) else None |}
  end.

(** Lines 247-259. *)
Definition _isLocked : M bool := fun w => (_locked w, w).

Definition _lock : M unit := set_locked true.

Definition _unlock : M unit :=
  d <- readOption disabled ;;
  if negb d then set_locked false else ret tt.

(** Lines 145-151. *)
Definition _renderDisabledState : M unit :=
  d <- readOption disabled ;;
  if d then _lock else _unlock.

(** Lines 153-156. *)
Definition _renderStrategy : M unit := call StrategyRender render.

(** Lines 158-160. *)
Definition _clean : M unit := call StrategyDispose dispose.

(** Lines 284-291, for a widget whose strategy has been created, as
    every other method of the file requires by calling [this._strategy]
    unguarded; the strategy's update is done when it returns, so the
    [done] callback runs at once. *)
Definition update : M unit :=
  call StrategyUpdate update_strategy ;;
  _updateAllowedDirection.

(** Lines 413-417. *)
Definition _updateIfNeed : M unit :=
  manually <- readOption updateManually ;;
  if negb manually then update else ret tt.

(** Lines 293-303. *)
Definition scrollBy (distance : Location) : M unit :=
  distance <- _normalizeLocation distance ;;
  if falsy (top distance) && falsy (left distance) then ret tt
  else
    _updateIfNeed ;;
    call (StrategyScrollBy distance) (scrollBy_strategy distance) ;;
    _updateRtlConfig.

(** Lines 306-320 of [scrollTo]: the distance to scroll by. *)
Definition scrollTo_distance (targetLocation : Location) : M Loc :=
  targetLocation <- _normalizeLocation targetLocation ;;
  _updateIfNeed ;;
  location <- _location ;;
  native <- readOption useNative ;;
  scaled <- (if negb native then
               t <- _applyScaleRatio targetLocation ;;
               l <- _applyScaleRatio (toLoc location) ;;
               ret (t, l)
             else ret (targetLocation, toLoc location)) ;;
  let targetLocation := fst scaled in
  let location := snd scaled in
  _normalizeLocation
    (object (minus (left location) (ensureDefined (left targetLocation) (left location)))
            (minus (top location) (ensureDefined (top targetLocation) (top location)))).

(** Lines 305-328. *)
Definition scrollTo (targetLocation : Location) : M unit :=
  distance <- scrollTo_distance targetLocation ;;
  if falsy (top distance) && falsy (left distance) then ret tt
  else
    call (StrategyScrollBy distance) (scrollBy_strategy distance) ;;
    _updateRtlConfig.

(** Lines 102-107, the callback given to [deferUpdate]: the left offset
    to restore. *)
Definition updateRtlPosition_deferUpdate : M Z :=
  max <- _getMaxOffset ;;
  c <- rtlConfig ;;
  let scrollLeft := point_left max - scrollRight c in
  if scrollLeft <=? 0 then
    max <- _getMaxOffset ;;
    set_scrollRight (point_left max) ;;
    ret 0
  else ret scrollLeft.

(** Lines 110-114, the callback given to [deferRender]. *)
Definition updateRtlPosition_deferRender (scrollLeft_ : Z) : M unit :=
  current <- scrollLeft ;;
  if negb (current =? scrollLeft_) then
    set_skipUpdating true ;;
    scrollTo (object (Some scrollLeft_) None) ;;
    set_skipUpdating false
  else ret tt.

(** Lines 98-118; [deferUpdate] and [deferRender] run their callback. *)
Definition _updateRtlPosition : M unit :=
  _updateBounds ;;
  rtl <- _isHorizontalAndRtlEnabled ;;
  if rtl then
    scrollLeft <- updateRtlPosition_deferUpdate ;;
    updateRtlPosition_deferRender scrollLeft
  else ret tt.

(** Lines 216-224: ['left'], ['top'] or [undefined]. *)
Inductive InactiveProp : Type := prop_left | prop_top.

Definition _getInactiveProp : M (option InactiveProp) :=
  direction <- readOption direction ;;
  if String.eqb direction VERTICAL then ret (Some prop_left)
  else if String.eqb direction HORIZONTAL then ret (Some prop_top)
  else ret None.

(** Lines 205-214. *)
Definition _resetInactiveDirection : M unit :=
  inactiveProp <- _getInactiveProp ;;
  match inactiveProp with
  | None => ret tt
  | Some inactiveProp =>
      win <- hasWindow ;;
      if negb win then ret tt
      else
        scrollOffset <- scrollOffset ;;
        scrollTo
          (match inactiveProp with
           | prop_left => object (Some 0) (Some (point_top scrollOffset))
           | prop_top => object (Some (point_left scrollOffset)) (Some 0)
           end)
  end.

(** Lines 35-39; [_initScrollableMarkup] touches none of the fields. *)
Definition _init : M unit :=
  callBase "_init" ;;
  set_locked false.

(** Lines 78-92. *)
Definition _render : M unit :=
  _renderStrategy ;;
  _renderDisabledState ;;
  update ;;
  callBase "_render" ;;
  el <- _container ;;
  ratio <- _getWindowDevicePixelRatio ;;
  set_rtlConfig (mkRtlConfig 0 (Element.clientWidth el) ratio false) ;;
  _updateRtlPosition.

(** Lines 69-72. *)
Definition _dimensionChanged : M unit :=
  update ;;
  _updateRtlPosition.

(** Lines 47-56. *)
Definition _visibilityChanged (visible : bool) : M unit :=
  if visible then
    update ;;
    _updateRtlPosition ;;
    saved <- (fun w => (_savedScrollOffset w, w)) ;;
    match saved with
    | Some offset =>
        scrollTo (object (Some (point_left offset)) (Some (point_top offset)))
    | None => ret tt
    end ;;
    set_savedScrollOffset None
  else
    offset <- scrollOffset ;;
    set_savedScrollOffset (Some offset).

Definition oneOf (name : string) (names : list string) : bool :=
  existsb (String.eqb name) names.

(** Lines 162-203. *)
Definition _optionChanged (name : string) : M unit :=
  if oneOf name ["onStart"; "onEnd"; "onStop"; "onUpdated"; "onScroll"; "onBounce"]
  then _createActions
  else if String.eqb name "direction" then
    _resetInactiveDirection ;;
    _invalidate
  else if String.eqb name "useNative" then
    _setUseSimulatedScrollbar ;;
    _invalidate
  else if oneOf name ["inertiaEnabled"; "scrollByContent"; "scrollByThumb";
                      "bounceEnabled"; "useKeyboard"; "showScrollbar";
                      "useSimulatedScrollbar"; "pushBackValue"]
  then _invalidate
  else if String.eqb name "disabled" then
    _renderDisabledState ;;
    call StrategyDisabledChanged disabledChanged
  else if String.eqb name "updateManually" then ret tt
  else if String.eqb name "width" then
    callBase "_optionChanged" ;;
    _updateRtlPosition
  else callBase "_optionChanged".

(** A change of an option: the option is assigned its new value, then
    the widget is told.  This is what [this.option(name, value)] does
    when the value differs from the current one, see [option_set]. *)
Definition setOption (u : OptionUpdate) : M unit :=
  set_options (assign u) ;;
  _optionChanged (optionName u).

(** The outside world moves on its own (a resize, a zoom, the user
    scrolling). *)
Definition hostChanged (e : E) : M unit :=
  fun w => (tt, mkWidget (options w) (initialUseSimulatedScrollbar w)
                  (_locked w) (_rtlConfig w) (_savedScrollOffset w) e (calls w)).

(** ** The life of a widget *)

(** What can happen to a rendered widget.  [op_option] also covers being
    told of an option that kept its value, which is more than
    [this.option] does. *)
Inductive Operation : Type :=
| op_option (u : OptionUpdate)
| op_scrollTo (l : Location)
| op_scrollBy (l : Location)
| op_update
| op_lock
| op_unlock
| op_render
| op_dimensionChanged
| op_visibilityChanged (visible : bool)
| op_hostChanged (e : E).

Definition perform (o : Operation) : M unit :=
  match o with
  | op_option u => setOption u
  | op_scrollTo l => scrollTo l
  | op_scrollBy l => scrollBy l
  | op_update => update
  | op_lock => _lock
  | op_unlock => _unlock
  | op_render => _clean ;; _render
  | op_dimensionChanged => _dimensionChanged
  | op_visibilityChanged visible => _visibilityChanged visible
  | op_hostChanged e => hostChanged e
  end.

(** The states of a widget after [_init] and [_render], and after every
    operation from there. *)
Inductive reachable : Widget E -> Prop :=
| reachable_rendered w : reachable (exec (_init ;; _render) w)
| reachable_perform o w : reachable w -> reachable (exec (perform o) w).

(** The delta of the specification, in its own words: per field, the
    current value minus the target (the current value where the target
    is undefined), normalized again, that is negated. *)
Definition delta (current : Point) (target : Loc) : Loc :=
  {| left := Some (- (point_left current
                      - match left target with
                        | Some t => t
                        | None => point_left current
                        end));
     top := Some (- (point_top current
                     - match top target with
                       | Some t => t
                       | None => point_top current
                       end)) |}.

(** The strategy's [_applyScaleRatio] on a location of two numbers. *)
Definition scalePoint (e : E) (p : Point) : Point :=
  {| point_left := scaleLeft e (point_left p);
     point_top := scaleTop e (point_top p) |}.

Definition scaleLoc (e : E) (l : Loc) : Loc :=
  {| left := option_map (scaleLeft e) (left l);
     top := option_map (scaleTop e) (top l) |}.

(** The calls [scrollTo] makes before it knows the distance. *)
Definition isPreparation (c : Call) : bool :=
  match c with
  | StrategyUpdate | UpdateAllowedDirection | StrategyLocation
  | StrategyApplyScaleRatio => true
  | _ => false
  end.

(** A strategy that moves by the distance it is given. *)
Definition movesBy : Prop :=
  forall (d : Loc) (e : E),
    location (scrollBy_strategy d e)
    = {| point_left := point_left (location e)
                       + match left d with Some v => v | None => 0 end;
         point_top := point_top (location e)
                      + match top d with Some v => v | None => 0 end |}.

(** The invariant of the disabled state. *)
Definition lockedWhileDisabled (w : Widget E) : Prop :=
  disabled (options w) = true -> _locked w = true.

(** A method leaves an observation of the widget as it was. *)
Definition preserves {X A : Type} (f : Widget E -> X) (m : M A) : Prop :=
  forall w, f (snd (m w)) = f w.

(** What the disabled state is about: the option and the flag. *)
Definition lockState (w : Widget E) : bool * bool :=
  (disabled (options w), _locked w).

(** ** Scrolling to an element *)

(** A jQuery element as far as this file asks it: whether
    [closest($content)] finds something, whether it [is($content)], its
    [position()] and its [offsetParent()].  The chain of offset parents
    ends at the document element, which is inside no content. *)
Inductive JQuery : Type :=
| html
| node (closestContent : bool) (isContent : bool) (position : Point)
       (offsetParent : JQuery).

(** Lines 408-411. *)
Definition _hasScrollContent (element : JQuery) : bool :=
  match element with
  | html => false
  | node closestContent isContent _ _ => closestContent && negb isContent
  end.

(** Lines 399-406, for [prop] one of ['left'] and ['top']. *)
Fixpoint _elementPositionRelativeToContent (element : JQuery)
    (prop : InactiveProp) : Z :=
  match element with
  | html => 0
  | node _ _ position offsetParent =>
      if _hasScrollContent element then
        match prop with
        | prop_left => point_left position
        | prop_top => point_top position
        end
        + _elementPositionRelativeToContent offsetParent prop
      else 0
  end.

(** What [scrollToElementTopLeft] asks about its argument:
    [this.$content().find(element).length], the number of parents with
    the scrollable class and with the content class, [$element.width()],
    and the element itself. *)
Record Target : Type := mkTarget {
  found : nat;
  scrollableParents : nat;
  contentParents : nat;
  target_width : Z;
  target_element : JQuery
}.

(** [this.clientWidth()] is not defined in this file; the client width
    of the container stands for it. *)
Definition widget_clientWidth : M Z :=
  c <- _container ;;
  ret (Element.clientWidth c).

(** Lines 351-373. *)
Definition scrollToElementTopLeft (element : Target) : M unit :=
  let elementInsideContent := found element in
  let elementIsInsideContent :=
    Nat.eqb (scrollableParents element) (contentParents element) in
  if Nat.eqb elementInsideContent 0 || negb elementIsInsideContent then ret tt
  else
    direction <- readOption direction ;;
    left_ <- (if differs direction VERTICAL then
                let leftPosition :=
                  _elementPositionRelativeToContent (target_element element) prop_left in
                rtl <- readOption rtlEnabled ;;
                if rtl then
                  width <- widget_clientWidth ;;
                  ret (leftPosition + target_width element - width)
                else ret leftPosition
              else ret 0) ;;
    top_ <- (if differs direction HORIZONTAL then
               ret (_elementPositionRelativeToContent (target_element element) prop_top)
             else ret 0) ;;
    scrollTo (object (Some left_) (Some top_)).

(** A chain of offset parents inside the content, ending at [above]. *)
Fixpoint inside (positions : list Point) (above : JQuery) : JQuery :=
  match positions with
  | [] => above
  | p :: rest => node true false p (inside rest above)
  end.

(** ** Further observations *)

(** A method keeps a property of the widget. *)
Definition keeps {A : Type} (P : Widget E -> Prop) (m : M A) : Prop :=
  forall w, P w -> P (snd (m w)).

(** The corrective scroll of [_updateRtlPosition] is not under way. *)
Definition notSkipping (w : Widget E) : Prop :=
  skipUpdating (_rtlConfig w) = false.

(** The operations that can change the locked flag. *)
Definition changesLock (o : Operation) : bool :=
  match o with
  | op_option u => String.eqb (optionName u) "disabled"
  | op_lock | op_unlock | op_render => true
  | _ => false
  end.

(** What scrolling leaves alone: the options and the saved offset. *)
Definition settings (w : Widget E) : Options * option Point :=
  (options w, _savedScrollOffset w).



(** A whole pixel value that doubles represent exactly, along with its
    sums and differences with another such value. *)
Definition safePixel (v : Z) : Prop := - 2 ^ 52 <= v <= 2 ^ 52.

Definition safePoint (p : Point) : Prop :=
  safePixel (point_left p) /\ safePixel (point_top p).

Definition safeLoc (l : Loc) : Prop :=
  (forall v, left l = Some v -> safePixel v)
  /\ (forall v, top l = Some v -> safePixel v).



(** A location moved by a distance, an undefined field moving nothing. *)
Definition movedBy (p : Point) (d : Loc) : Point :=
  {| point_left := point_left p + match left d with Some v => v | None => 0 end;
     point_top := point_top p + match top d with Some v => v | None => 0 end |}.

End Methods.

(** ** A sample host

    A page with or without a window, whose strategy scrolls the container
    by the distance it is given, without bounds, and reports the negated
    scroll position as its location. *)
Record Page : Type := mkPage {
  page_window : option Window;
  page_element : Element.t;
  page_scrollTop : Z
}.

Definition scrollPage (d : Loc) (p : Page) : Page :=
  let el := page_element p in
  mkPage (page_window p)
    (Element.make (Element.scrollWidth el) (Element.clientWidth el)
       (Element.scrollHeight el) (Element.clientHeight el)
       (Element.scrollLeft el - match left d with Some v => v | None => 0 end))
    (page_scrollTop p - match top d with Some v => v | None => 0 end).

#[export] Instance Page_Host : Host Page := {|
  window := page_window;
  element := page_element;
  location := fun p => mkPoint (- Element.scrollLeft (page_element p)) (- page_scrollTop p);
  scaleLeft := fun _ v => v;
  scaleTop := fun _ v => v;
  render := id;
  update_strategy := id;
  updateBounds := id;
  scrollBy_strategy := scrollPage;
  disabledChanged := id;
  dispose := id
|}.

(** The same page behind a strategy that does not follow [scrollBy]. *)
Record StuckPage : Type := mkStuck {
  stuck_page : Page
}.

#[export] Instance StuckPage_Host : Host StuckPage := {|
  window := fun p => page_window (stuck_page p);
  element := fun p => page_element (stuck_page p);
  location := fun p => mkPoint (- Element.scrollLeft (page_element (stuck_page p)))
                         (- page_scrollTop (stuck_page p));
  scaleLeft := fun _ v => v;
  scaleTop := fun _ v => v;
  render := id;
  update_strategy := id;
  updateBounds := id;
  scrollBy_strategy := fun _ p => p;
  disabledChanged := id;
  dispose := id
|}.

(** A container 1000 wide showing 400, scrolled 30 to the right and 70
    down. *)
Definition samplePage (win : option Window) : Page :=
  mkPage win (Element.make 1000 400 800 300 30) 70.

Definition sampleWidget (rtl : bool) (d : string) (win : option Window)
    (c : RtlConfig) : Widget Page :=
  mkWidget (mkOptions rtl d false true false false) false false c None
    (samplePage win) [].

End Scrollable.

(* ===================================================================== *)
(** * Part II: the canvas resolution                                      *)
(* ===================================================================== *)

Module BaseWidgetSpec.

Import BaseWidget.

(** ** The tests of [describe('setCanvas')] *)

Example should_get_empty_canvas_by_default :
  setCanvas noSize None noMargin DEFAULT_CANVAS = DEFAULT_CANVAS.
Proof. reflexivity. Qed.

Example should_get_size_from_props :
  let canvas := setCanvas (mkSize (Some 600) (Some 400)) None noMargin DEFAULT_CANVAS in
  width canvas = 600 /\ height canvas = 400.
Proof. split; reflexivity. Qed.

Example should_get_size_from_container_element :
  let canvas := setCanvas noSize (Some (mkStyle 400 10 10 300 10 10)) noMargin
                  DEFAULT_CANVAS in
  width canvas = 380 /\ height canvas = 280.
Proof. split; reflexivity. Qed.

Example should_get_default_canvas_from_props :
  setCanvas noSize (Some (mkStyle 0 0 0 0 0 0)) noMargin canvas_500_300
  = mkCanvas 500 300 10 20 30 40.
Proof. reflexivity. Qed.

Example should_get_merged_size_from_props_and_container :
  let canvas := setCanvas (mkSize (Some 600) None) (Some style_400_300) noMargin
                  DEFAULT_CANVAS in
  width canvas = 600 /\ height canvas = 300.
Proof. split; reflexivity. Qed.

Example should_get_merged_canvas_from_props :
  forall container, container = None \/ container = Some style_400_300 ->
  setCanvas (mkSize (Some 600) None) container
    (mkMargin (Some 20) (Some 40) None None) canvas_500_300
  = mkCanvas 600 300 20 20 40 40.
Proof. intros container [-> | ->]; reflexivity. Qed.

Example should_get_default_canvas_if_size_is_not_valid :
  forall container,
  setCanvas (mkSize (Some (-600)) (Some (-400))) container noMargin
    (mkCanvas 500 300 0 0 0 0)
  = mkCanvas 500 300 0 0 0 0.
Proof. reflexivity. Qed.

Example should_get_default_canvas_if_any_side_is_negative :
  forall container,
  setCanvas (mkSize (Some 600) (Some 400)) container
    (mkMargin (Some 200) (Some 300) (Some 400) (Some 100)) canvas_500_300
  = mkCanvas 500 300 10 20 30 40.
Proof. reflexivity. Qed.

(** ** [pickDimension] against the precedence of the specification *)

Lemma pickDimension_precedence explicit measured dflt :
  precedence explicit measured dflt (pickDimension explicit measured dflt).
Proof.
  unfold pickDimension.
  destruct explicit as [v |].
  - destruct (Z.leb_spec 0 v) as [Hv | Hv].
    + now apply precedence_explicit.
    + destruct (Z.ltb_spec 0 measured).
      * apply precedence_measured; [intros ? [= <-] |]; assumption.
      * apply precedence_default; [intros ? [= <-] |]; assumption.
  - destruct (Z.ltb_spec 0 measured).
    + apply precedence_measured; [discriminate | assumption].
    + apply precedence_default; [discriminate | assumption].
Qed.

Lemma precedence_pickDimension explicit measured dflt v :
  precedence explicit measured dflt v -> v = pickDimension explicit measured dflt.
Proof.
  unfold pickDimension.
  intros [u -> Hu | Hneg Hm | Hneg Hm].
  - destruct (Z.leb_spec 0 u); [reflexivity | lia].
  - destruct explicit as [u |].
    + specialize (Hneg u eq_refl).
      destruct (Z.leb_spec 0 u); [lia |].
      destruct (Z.ltb_spec 0 measured); [reflexivity | lia].
    + destruct (Z.ltb_spec 0 measured); [reflexivity | lia].
  - destruct explicit as [u |].
    + specialize (Hneg u eq_refl).
      destruct (Z.leb_spec 0 u); [lia |].
      destruct (Z.ltb_spec 0 measured); [lia | reflexivity].
    + destruct (Z.ltb_spec 0 measured); [lia | reflexivity].
Qed.

Lemma isNegative_false field :
  (forall v, field = Some v -> 0 <= v) -> isNegative field = false.
Proof.
  destruct field as [v |]; simpl; [| reflexivity].
  intros Hv. specialize (Hv v eq_refl). now apply Z.ltb_ge.
Qed.

Lemma isNegative_true field v :
  field = Some v -> v < 0 -> isNegative field = true.
Proof. intros -> Hv. now apply Z.ltb_lt. Qed.

(** The two ways out of [setCanvas]. *)
Lemma setCanvas_cases size container margin defaultCanvas :
  let w := pickDimension (size_width size) (contentWidth container)
             (width defaultCanvas) in
  let h := pickDimension (size_height size) (contentHeight container)
             (height defaultCanvas) in
  let l := pickInset (margin_left margin) (left defaultCanvas) in
  let r := pickInset (margin_right margin) (right defaultCanvas) in
  let t := pickInset (margin_top margin) (top defaultCanvas) in
  let b := pickInset (margin_bottom margin) (bottom defaultCanvas) in
  setCanvas size container margin defaultCanvas = defaultCanvas
  \/ (setCanvas size container margin defaultCanvas = mkCanvas w h l r t b
      /\ isNegative (size_width size) = false
      /\ isNegative (size_height size) = false
      /\ 0 <= w /\ 0 <= h /\ l + r < w /\ t + b < h).
Proof.
  intros w h l r t b. unfold setCanvas, sizeIsInvalid, noRoom. cbn zeta. simpl.
  fold w h l r t b.
  destruct (isNegative (size_width size)); [now left |].
  destruct (isNegative (size_height size)); [now left |].
  simpl.
  destruct (Z.ltb_spec w 0); [now left |].
  destruct (Z.ltb_spec h 0); [now left |].
  simpl.
  destruct (Z.leb_spec (w - l - r) 0); [now left |].
  destruct (Z.leb_spec (h - t - b) 0); [now left |].
  right. repeat split; lia.
Qed.


(** ** The claims *)

Lemma isNegative_false_iff field :
  isNegative field = false <-> (forall v, field = Some v -> 0 <= v).
Proof.
  split; [| apply isNegative_false].
  destruct field as [u |]; simpl; [| discriminate].
  intros Hu v [= <-]. now apply Z.ltb_ge.
Qed.

(** C1, as amended.  When no field of [size] is negative and the insets
    leave positive room on both axes, [setCanvas] determines width and
    height independently, each by the precedence: the explicit size field
    if present and non-negative; otherwise the container's content-box
    dimension if positive; otherwise the dimension of [defaultCanvas].
    Otherwise, the boundary where the insets add up to exactly the
    dimension included, the whole result is [defaultCanvas]. *)
Theorem setCanvas_precedence size container margin defaultCanvas w h :
  precedence (size_width size) (contentWidth container) (width defaultCanvas) w ->
  precedence (size_height size) (contentHeight container) (height defaultCanvas) h ->
  let l := pickInset (margin_left margin) (left defaultCanvas) in
  let r := pickInset (margin_right margin) (right defaultCanvas) in
  let t := pickInset (margin_top margin) (top defaultCanvas) in
  let b := pickInset (margin_bottom margin) (bottom defaultCanvas) in
  let room :=
    (forall v, size_width size = Some v -> 0 <= v)
    /\ (forall v, size_height size = Some v -> 0 <= v)
    /\ 0 <= w /\ 0 <= h /\ l + r < w /\ t + b < h in
  (room ->
     width (setCanvas size container margin defaultCanvas) = w
     /\ height (setCanvas size container margin defaultCanvas) = h)
  /\ (~ room -> setCanvas size container margin defaultCanvas = defaultCanvas).
Proof.
  intros Hw Hh l r t b room.
  apply precedence_pickDimension in Hw, Hh.
  destruct (setCanvas_cases size container margin defaultCanvas)
    as [Hd | (Hm & Hnw & Hnh & Hw0 & Hh0 & Hrw & Hrh)];
    cbv zeta in *; rewrite <- ?Hw, <- ?Hh in *.
  - split; [| intros _; exact Hd].
    intros (Hsw & Hsh & Hw0 & Hh0 & Hrw & Hrh).
    unfold setCanvas, sizeIsInvalid, noRoom in *. cbv zeta in *. simpl in *.
    rewrite <- Hw, <- Hh in *.
    rewrite (isNegative_false _ Hsw), (isNegative_false _ Hsh) in *. simpl in *.
    fold l r t b in Hd |- *.
    destruct (Z.ltb_spec w 0); [lia |].
    destruct (Z.ltb_spec h 0); [lia |]. simpl in *.
    destruct (Z.leb_spec (w - l - r) 0); [lia |].
    destruct (Z.leb_spec (h - t - b) 0); [lia |].
    simpl in *. split; reflexivity.
  - split.
    + intros _. rewrite Hm. split; reflexivity.
    + intros Hnot. exfalso. apply Hnot. unfold room.
      pose proof (proj1 (isNegative_false_iff _) Hnw) as Hsw.
      pose proof (proj1 (isNegative_false_iff _) Hnh) as Hsh.
      repeat split; assumption.
Qed.

(** The case the claim singles out, on the test at lines 232-251 (an
    explicit width of 600 with no explicit height, in a container of
    400 x 300, gives 600 x 300), and the boundary of the test at lines
    300-329. *)
Lemma setCanvas_precedence_witness :
  (width (setCanvas (mkSize (Some 600) None) (Some style_400_300) noMargin
            DEFAULT_CANVAS) = 600
   /\ height (setCanvas (mkSize (Some 600) None) (Some style_400_300) noMargin
                DEFAULT_CANVAS) = 300)
  /\ setCanvas (mkSize (Some 600) (Some 400)) None
       (mkMargin (Some 200) (Some 300) (Some 400) (Some 100)) canvas_500_300
     = canvas_500_300.
Proof.
  split.
  - apply (setCanvas_precedence (mkSize (Some 600) None) (Some style_400_300)
             noMargin DEFAULT_CANVAS 600 300).
    + apply precedence_explicit; [reflexivity | lia].
    + apply (precedence_measured None 300 0); [discriminate | lia].
    + simpl. repeat split; try lia.
      * intros v [= <-]. lia.
      * discriminate.
  - apply (setCanvas_precedence (mkSize (Some 600) (Some 400)) None
             (mkMargin (Some 200) (Some 300) (Some 400) (Some 100))
             canvas_500_300 600 400).
    + apply precedence_explicit; [reflexivity | lia].
    + apply precedence_explicit; [reflexivity | lia].
    + simpl. intros (_ & _ & _ & _ & Hroom & _). lia.
Defined.

(** C1 as stated fails on the test at lines 300-329: the explicit width
    600 is present and non-negative, yet the resolved width is 500, the
    one of [defaultCanvas], which is not what the precedence gives. *)
Lemma setCanvas_explicit_size_overridden :
  let canvas := setCanvas (mkSize (Some 600) (Some 400)) (Some style_400_300)
                  (mkMargin (Some 200) (Some 300) (Some 400) (Some 100))
                  canvas_500_300 in
  width canvas = 500
  /\ ~ precedence (Some 600) (contentWidth (Some style_400_300))
         (width canvas_500_300) (width canvas).
Proof.
  split; [reflexivity |].
  simpl. intros Hp.
  apply precedence_pickDimension in Hp. discriminate Hp.
Qed.

(** C2.  For every size with a negative width or height field,
    [setCanvas] returns [defaultCanvas] verbatim, insets included,
    whatever the container measures and whatever margin is supplied. *)
Theorem setCanvas_negative_size size container margin defaultCanvas :
  (exists v, size_width size = Some v /\ v < 0)
  \/ (exists v, size_height size = Some v /\ v < 0) ->
  setCanvas size container margin defaultCanvas = defaultCanvas.
Proof.
  intros Hneg. unfold setCanvas, sizeIsInvalid. cbn zeta.
  destruct Hneg as [(v & Hv & Hlt) | (v & Hv & Hlt)];
    rewrite (isNegative_true _ v Hv Hlt).
  - reflexivity.
  - rewrite orb_true_r. reflexivity.
Qed.

Lemma setCanvas_negative_size_witness :
  setCanvas (mkSize (Some (-600)) (Some 400)) (Some style_400_300)
    (mkMargin (Some 20) (Some 40) None None) canvas_500_300
  = canvas_500_300.
Proof.
  apply setCanvas_negative_size.
  left. exists (-600). split; [reflexivity | lia].
Defined.

(** C3.  Whenever the insets on some axis add up to more than the
    resolved dimension on that axis, [setCanvas] returns [defaultCanvas]
    verbatim; the available space is never clamped to zero. *)
Theorem setCanvas_margin_exceeds size container margin defaultCanvas w h :
  precedence (size_width size) (contentWidth container) (width defaultCanvas) w ->
  precedence (size_height size) (contentHeight container) (height defaultCanvas) h ->
  w < pickInset (margin_left margin) (left defaultCanvas)
      + pickInset (margin_right margin) (right defaultCanvas)
  \/ h < pickInset (margin_top margin) (top defaultCanvas)
         + pickInset (margin_bottom margin) (bottom defaultCanvas) ->
  setCanvas size container margin defaultCanvas = defaultCanvas.
Proof.
  intros Hw Hh Hexceeds.
  apply precedence_pickDimension in Hw, Hh.
  destruct (setCanvas_cases size container margin defaultCanvas)
    as [Hd | (_ & _ & _ & _ & _ & Hroomw & Hroomh)]; [exact Hd |].
  rewrite <- Hw in Hroomw. rewrite <- Hh in Hroomh. lia.
Qed.

(** The example of the specification: margins of 300 and 100 against a
    default height of 300. *)
Lemma setCanvas_margin_exceeds_witness :
  setCanvas (mkSize (Some 600) None) None
    (mkMargin None (Some 300) None (Some 100)) canvas_500_300
  = canvas_500_300.
Proof.
  apply (setCanvas_margin_exceeds _ _ _ _ 600 300).
  - apply precedence_explicit; [reflexivity | lia].
  - apply (precedence_default None 0 300); [discriminate | simpl; lia].
  - right. simpl. lia.
Defined.

End BaseWidgetSpec.

(* ===================================================================== *)
(** * Part III: the scrollable                                            *)
(* ===================================================================== *)

Module ScrollableSpec.

Import Scrollable.

Section Frames.

Context {E : Type} {H : Host E}.

(** ** Composing observations *)

Lemma preserves_ret {X A : Type} (f : Widget E -> X) (a : A) :
  preserves f (ret a).
Proof. intros w. reflexivity. Qed.

Lemma preserves_bind {X A B : Type} (f : Widget E -> X) (m : M A) (k : A -> M B) :
  preserves f m -> (forall a, preserves f (k a)) -> preserves f (bind m k).
Proof.
  intros Hm Hk w. unfold bind.
  specialize (Hm w). destruct (m w) as [a w']. simpl in Hm.
  rewrite Hk. exact Hm.
Qed.

Lemma exec_bind {A B : Type} (m : M A) (k : A -> M B) (w : Widget E) :
  exec (bind m k) w = exec (k (fst (m w))) (exec m w).
Proof. unfold exec, bind. destruct (m w). reflexivity. Qed.

End Frames.

Create HintDb frame.
#[local] Hint Resolve preserves_ret : frame.

(** Splits a method along its binds and branches. *)
Ltac frame :=
  repeat first
    [ progress intros
    | solve [auto with frame]
    | apply preserves_bind
    | match goal with
      | |- preserves _ (if ?b then _ else _) => destruct b
      | |- preserves _ (match ?x with Some _ => _ | None => _ end) => destruct x
      | |- preserves _ (match ?x with prop_left => _ | prop_top => _ end) => destruct x
      end
    | solve [intros ?; reflexivity] ].

Section LockState.

Context {E : Type} {H : Host E}.

(** ** What touches the disabled option and the locked flag *)

Lemma call_lockState c (effect : E -> E) : preserves (E := E) lockState (call c effect).
Proof. intros w. reflexivity. Qed.
#[local] Hint Resolve call_lockState : frame.

Lemma update_lockState : preserves (E := E) lockState update.
Proof. unfold update, _updateAllowedDirection. frame. Qed.
#[local] Hint Resolve update_lockState : frame.

Lemma updateIfNeed_lockState : preserves (E := E) lockState _updateIfNeed.
Proof. unfold _updateIfNeed. frame. Qed.
#[local] Hint Resolve updateIfNeed_lockState : frame.

Lemma updateRtlConfig_lockState : preserves (E := E) lockState _updateRtlConfig.
Proof.
  unfold _updateRtlConfig, _isHorizontalAndRtlEnabled, _getMaxOffset,
    set_scrollRight.
  frame.
Qed.
#[local] Hint Resolve updateRtlConfig_lockState : frame.

Lemma normalizeLocation_lockState l : preserves (E := E) lockState (_normalizeLocation l).
Proof. unfold _normalizeLocation. destruct l; frame. Qed.
#[local] Hint Resolve normalizeLocation_lockState : frame.

Lemma scrollTo_distance_lockState l : preserves (E := E) lockState (scrollTo_distance l).
Proof.
  unfold scrollTo_distance. frame.
Qed.
#[local] Hint Resolve scrollTo_distance_lockState : frame.

Lemma scrollTo_lockState l : preserves (E := E) lockState (scrollTo l).
Proof.
  unfold scrollTo. frame.
Qed.
#[local] Hint Resolve scrollTo_lockState : frame.

Lemma scrollBy_lockState l : preserves (E := E) lockState (scrollBy l).
Proof.
  unfold scrollBy. frame.
Qed.
#[local] Hint Resolve scrollBy_lockState : frame.

Lemma updateRtlPosition_lockState : preserves (E := E) lockState _updateRtlPosition.
Proof.
  unfold _updateRtlPosition, _updateBounds, _isHorizontalAndRtlEnabled,
    updateRtlPosition_deferUpdate, updateRtlPosition_deferRender,
    _getMaxOffset, set_scrollRight, set_skipUpdating, scrollLeft, scrollOffset.
  frame.
Qed.
#[local] Hint Resolve updateRtlPosition_lockState : frame.

Lemma resetInactiveDirection_lockState : preserves (E := E) lockState _resetInactiveDirection.
Proof.
  unfold _resetInactiveDirection, _getInactiveProp, scrollOffset.
  frame.
Qed.
#[local] Hint Resolve resetInactiveDirection_lockState : frame.

Lemma setUseSimulatedScrollbar_lockState : preserves (E := E) lockState _setUseSimulatedScrollbar.
Proof.
  intros w. unfold _setUseSimulatedScrollbar.
  destruct (negb (initialUseSimulatedScrollbar w)); [| reflexivity].
  destruct (Bool.eqb _ _); reflexivity.
Qed.
#[local] Hint Resolve setUseSimulatedScrollbar_lockState : frame.

(** ** The disabled widget stays locked *)

Lemma lockState_invariant {A : Type} (m : M A) w :
  preserves (E := E) lockState m ->
  lockedWhileDisabled w -> lockedWhileDisabled (exec m w).
Proof.
  intros Hm Hw. specialize (Hm w). unfold lockState in Hm.
  injection Hm as Hd Hl. unfold lockedWhileDisabled, exec.
  rewrite Hd, Hl. exact Hw.
Qed.

Lemma renderDisabledState_locks (w : Widget E) :
  lockedWhileDisabled (exec _renderDisabledState w).
Proof.
  unfold lockedWhileDisabled, exec, _renderDisabledState, _lock, _unlock,
    bind, readOption, set_locked, ret.
  simpl. destruct (disabled (options w)) eqn:Hd; simpl; [reflexivity |].
  rewrite Hd. simpl. rewrite Hd. discriminate.
Qed.

Lemma unlock_disabled (w : Widget E) :
  disabled (options w) = true -> _unlock w = (tt, w).
Proof.
  intros Hd. unfold _unlock, bind, readOption. rewrite Hd. reflexivity.
Qed.

Lemma unlock_enabled (w : Widget E) :
  disabled (options w) = false -> _locked (exec _unlock w) = false.
Proof.
  intros Hd. unfold exec, _unlock, bind, readOption. rewrite Hd. reflexivity.
Qed.

Lemma unlock_locks (w : Widget E) :
  lockedWhileDisabled w -> lockedWhileDisabled (exec _unlock w).
Proof.
  intros Hw. unfold lockedWhileDisabled.
  destruct (disabled (options w)) eqn:Hd.
  - unfold exec. rewrite (unlock_disabled w Hd). intros _. apply Hw, Hd.
  - unfold exec, _unlock, bind, readOption. rewrite Hd. simpl.
    rewrite Hd. discriminate.
Qed.

Lemma optionChanged_locks name (w : Widget E) :
  lockedWhileDisabled w \/ name = "disabled" ->
  lockedWhileDisabled (exec (_optionChanged name) w).
Proof.
  intros [Hw | ->].
  - unfold _optionChanged.
    destruct (oneOf name _); [apply lockState_invariant; [frame | exact Hw] |].
    destruct (String.eqb name "direction");
      [apply lockState_invariant; [unfold _invalidate; frame | exact Hw] |].
    destruct (String.eqb name "useNative");
      [apply lockState_invariant; [unfold _invalidate; frame | exact Hw] |].
    destruct (oneOf name _); [apply lockState_invariant; [frame | exact Hw] |].
    destruct (String.eqb name "disabled").
    + rewrite exec_bind. apply lockState_invariant; [frame |].
      apply renderDisabledState_locks.
    + destruct (String.eqb name "updateManually");
        [apply lockState_invariant; [frame | exact Hw] |].
      destruct (String.eqb name "width");
        apply lockState_invariant; (frame || exact Hw).
  - change (_optionChanged "disabled")
      with (bind _renderDisabledState
              (fun _ => call StrategyDisabledChanged disabledChanged)).
    rewrite exec_bind. apply lockState_invariant; [frame |].
    apply renderDisabledState_locks.
Qed.

Lemma setOption_locks u (w : Widget E) :
  lockedWhileDisabled w -> lockedWhileDisabled (exec (setOption u) w).
Proof.
  intros Hw. unfold setOption. rewrite exec_bind.
  apply optionChanged_locks.
  destruct u; try (left; exact Hw).
  right. reflexivity.
Qed.

Lemma render_locks (w : Widget E) : lockedWhileDisabled (exec _render w).
Proof.
  unfold _render. rewrite exec_bind, exec_bind.
  apply lockState_invariant; [frame |].
  apply renderDisabledState_locks.
Qed.

Lemma perform_locks o (w : Widget E) :
  lockedWhileDisabled w -> lockedWhileDisabled (exec (perform o) w).
Proof.
  intros Hw. destruct o; simpl.
  - now apply setOption_locks.
  - apply lockState_invariant; [frame | exact Hw].
  - apply lockState_invariant; [frame | exact Hw].
  - apply lockState_invariant; [frame | exact Hw].
  - unfold lockedWhileDisabled. reflexivity.
  - now apply unlock_locks.
  - rewrite exec_bind. apply render_locks.
  - apply lockState_invariant; [unfold _dimensionChanged; frame | exact Hw].
  - apply lockState_invariant;
      [unfold _visibilityChanged, scrollOffset; frame | exact Hw].
  - exact Hw.
Qed.

Lemma reachable_locks (w : Widget E) : reachable w -> lockedWhileDisabled w.
Proof.
  induction 1 as [w | o w _ IH].
  - rewrite exec_bind. apply render_locks.
  - now apply perform_locks.
Qed.

(** C9.  While [disabled] is true the scrollable stays locked:
    [_renderDisabledState] locks a disabled widget, [_unlock] leaves the
    flag alone as long as [disabled] is true, so [_isLocked] answers true
    in every state a rendered widget reaches while disabled; and
    [_unlock] clears the flag once [disabled] is false. *)
Theorem disabled_stays_locked (w : Widget E) :
  (disabled (options w) = true ->
     _locked (exec _renderDisabledState w) = true /\ _unlock w = (tt, w))
  /\ (reachable w -> disabled (options w) = true -> fst (_isLocked w) = true)
  /\ (disabled (options w) = false -> _locked (exec _unlock w) = false).
Proof.
  split; [| split].
  - intros Hd. split; [| now apply unlock_disabled].
    unfold exec, _renderDisabledState, bind, readOption. rewrite Hd. reflexivity.
  - intros Hr Hd. simpl. now apply reachable_locks.
  - apply unlock_enabled.
Qed.

End LockState.

Section Scrolling.

Context {E : Type} {H : Host E}.

(** ** Normalizing a location *)

Lemma differs_true (a b : string) : a <> b -> differs a b = true.
Proof. intros Hab. unfold differs. now apply negb_true_iff, String.eqb_neq. Qed.

Lemma differs_false (a : string) : differs a a = false.
Proof. unfold differs. now rewrite String.eqb_refl. Qed.

Lemma normalizeLocation_state (w : Widget E) (l : Location) :
  snd (_normalizeLocation l w) = w.
Proof. destruct l; reflexivity. Qed.

(** The result does not depend on [rtlEnabled]. *)
Lemma normalizeLocation_rtl (w : Widget E) (location : Location) (rtl : bool) :
  fst (_normalizeLocation location (exec (set_options (assign (set_rtlEnabled rtl))) w))
  = fst (_normalizeLocation location w).
Proof. destruct location; reflexivity. Qed.

(** C4.  [_normalizeLocation] reads nothing but the direction, whatever
    [rtlEnabled] is, and changes nothing.  Of an object it negates
    [left] (or [x] when [left] is absent) and [top] (or [y] when [top]
    is absent), a field absent in both spellings staying undefined.  Of
    a number [v] it puts [-v] on the axis of the direction: on [left]
    alone when horizontal, on [top] alone when vertical, on both for any
    other direction. *)
Theorem normalizeLocation_rule (w : Widget E) (location : Location) :
  snd (_normalizeLocation location w) = w
  /\ (forall rtl : bool,
        fst (_normalizeLocation location
               (exec (set_options (assign (set_rtlEnabled rtl))) w))
        = fst (_normalizeLocation location w))
  /\ match location with
     | PlainObject l x t y =>
         fst (_normalizeLocation location w)
         = {| left := option_map Z.opp (match l with Some _ => l | None => x end);
              top := option_map Z.opp (match t with Some _ => t | None => y end) |}
     | Scalar v =>
         (direction (options w) = HORIZONTAL ->
            fst (_normalizeLocation location w) = {| left := Some (- v); top := None |})
         /\ (direction (options w) = VERTICAL ->
               fst (_normalizeLocation location w) = {| left := None; top := Some (- v) |})
         /\ (direction (options w) <> HORIZONTAL ->
             direction (options w) <> VERTICAL ->
               fst (_normalizeLocation location w)
               = {| left := Some (- v); top := Some (- v) |})
     end.
Proof.
  split; [apply normalizeLocation_state |].
  split; [intros rtl; apply normalizeLocation_rtl |].
  destruct location as [v | l x t y]; simpl.
  - unfold bind, readOption, ret. simpl.
    repeat split.
    + intros ->. reflexivity.
    + intros ->. reflexivity.
    + intros Hh Hv. now rewrite (differs_true _ _ Hh), (differs_true _ _ Hv).
  - unfold ret, ensureDefined. simpl.
    destruct l, x, t, y; reflexivity.
Qed.

(** ** What [_updateRtlConfig] does *)

Lemma isHorizontalAndRtlEnabled_true (w : Widget E) :
  rtlEnabled (options w) = true -> direction (options w) <> VERTICAL ->
  _isHorizontalAndRtlEnabled w = (true, w).
Proof.
  intros Hr Hd. unfold _isHorizontalAndRtlEnabled, bind, readOption, ret.
  now rewrite Hr, (differs_true _ _ Hd).
Qed.

Lemma isHorizontalAndRtlEnabled_false (w : Widget E) :
  rtlEnabled (options w) = false \/ direction (options w) = VERTICAL ->
  _isHorizontalAndRtlEnabled w = (false, w).
Proof.
  intros Hc. unfold _isHorizontalAndRtlEnabled, bind, readOption, ret.
  destruct Hc as [-> | ->]; [reflexivity |].
  now rewrite differs_false, andb_false_r.
Qed.

Lemma updateRtlConfig_skipped (w : Widget E) :
  rtlEnabled (options w) = false \/ direction (options w) = VERTICAL
  \/ skipUpdating (_rtlConfig w) = true ->
  _updateRtlConfig w = (tt, w).
Proof.
  intros Hc. unfold _updateRtlConfig, bind at 1.
  destruct Hc as [Hc | [Hc | Hc]].
  - rewrite isHorizontalAndRtlEnabled_false by (now left). reflexivity.
  - rewrite isHorizontalAndRtlEnabled_false by (now right). reflexivity.
  - destruct (_isHorizontalAndRtlEnabled w) as [rtl w1] eqn:Hrtl.
    assert (w1 = w) as ->.
    { unfold _isHorizontalAndRtlEnabled, bind, readOption, ret in Hrtl.
      now injection Hrtl. }
    unfold bind, rtlConfig. rewrite Hc, andb_false_r. reflexivity.
Qed.

Lemma updateRtlConfig_host : preserves (E := E) host _updateRtlConfig.
Proof.
  unfold _updateRtlConfig, _isHorizontalAndRtlEnabled, _getMaxOffset,
    set_scrollRight.
  frame.
Qed.

(** A scroll that is performed ends by updating the RTL configuration. *)
Lemma scrollBy_performed (w : Widget E) (distance : Location) :
  let d := fst (_normalizeLocation distance w) in
  falsy (top d) && falsy (left d) = false ->
  scrollBy distance w
  = _updateRtlConfig
      (exec (bind _updateIfNeed
               (fun _ => call (StrategyScrollBy d) (scrollBy_strategy d))) w).
Proof.
  intros d Hd. unfold scrollBy, bind at 1.
  pose proof (normalizeLocation_state w distance) as Hs.
  fold d. destruct (_normalizeLocation distance w) as [d' w'] eqn:Hn.
  simpl in Hs. subst w'. subst d. simpl in Hd. simpl. rewrite Hd.
  unfold exec, bind.
  destruct (_updateIfNeed w) as [[] w1].
  destruct (call (StrategyScrollBy d') (scrollBy_strategy d') w1) as [[] w2].
  reflexivity.
Qed.

Lemma scrollTo_performed (w : Widget E) (targetLocation : Location) :
  let d := fst (scrollTo_distance targetLocation w) in
  falsy (top d) && falsy (left d) = false ->
  scrollTo targetLocation w
  = _updateRtlConfig
      (exec (call (StrategyScrollBy d) (scrollBy_strategy d))
         (snd (scrollTo_distance targetLocation w))).
Proof.
  intros d Hd. unfold scrollTo, bind. subst d.
  destruct (scrollTo_distance targetLocation w) as [d w1].
  simpl in *. rewrite Hd. reflexivity.
Qed.

(** A scroll by no distance stops at once. *)
Lemma scrollBy_nothing (w : Widget E) (distance : Location) :
  let d := fst (_normalizeLocation distance w) in
  falsy (top d) && falsy (left d) = true ->
  scrollBy distance w = (tt, w).
Proof.
  intros d Hd. unfold scrollBy, bind.
  pose proof (normalizeLocation_state w distance) as Hs.
  subst d. destruct (_normalizeLocation distance w) as [d' w'].
  simpl in *. subst w'. rewrite Hd. reflexivity.
Qed.

Lemma scrollTo_nothing (w : Widget E) (targetLocation : Location) :
  let d := fst (scrollTo_distance targetLocation w) in
  falsy (top d) && falsy (left d) = true ->
  scrollTo targetLocation w = (tt, snd (scrollTo_distance targetLocation w)).
Proof.
  intros d Hd. unfold scrollTo, bind. subst d.
  destruct (scrollTo_distance targetLocation w) as [d w1].
  simpl in *. rewrite Hd. reflexivity.
Qed.


(** ** The distance [scrollTo] computes *)

Lemma scrollTo_distance_value (w : Widget E) (target : Location) :
  let e := host (exec _updateIfNeed w) in
  let n := fst (_normalizeLocation target w) in
  fst (scrollTo_distance target w)
  = if useNative (options w) then delta (location e) n
    else delta (scalePoint e (location e)) (scaleLoc e n).
Proof.
  unfold scrollTo_distance, exec, _updateIfNeed, update, _updateAllowedDirection,
    _location, _applyScaleRatio, _normalizeLocation, call, bind, readOption, ret,
    delta, scalePoint, scaleLoc, toLoc, object, ensureDefined, minus.
  destruct w as [[rtl dir dis native manually sim] initial locked c saved e cs].
  destruct target as [v | l x t y]; simpl.
  - destruct manually, native; simpl;
      destruct (differs dir VERTICAL), (differs dir HORIZONTAL); reflexivity.
  - destruct manually, native; simpl; destruct l, x, t, y; reflexivity.
Qed.

Lemma scrollTo_distance_state (w : Widget E) (target : Location) :
  let w1 := snd (scrollTo_distance target w) in
  options w1 = options w
  /\ _locked w1 = _locked w
  /\ _rtlConfig w1 = _rtlConfig w
  /\ host w1 = host (exec _updateIfNeed w)
  /\ exists preparation,
       calls w1 = (preparation ++ calls w)%list /\ forallb isPreparation preparation = true.
Proof.
  unfold scrollTo_distance, exec, _updateIfNeed, update, _updateAllowedDirection,
    _location, _applyScaleRatio, _normalizeLocation, call, bind, readOption, ret.
  destruct w as [[rtl dir dis native manually sim] initial locked c saved e cs].
  destruct target as [v | l x t y]; simpl;
    destruct manually, native; simpl;
    repeat split;
    first
      [ now exists [StrategyLocation]
      | now exists [StrategyLocation; UpdateAllowedDirection; StrategyUpdate]
      | now exists [StrategyApplyScaleRatio; StrategyApplyScaleRatio; StrategyLocation]
      | now exists [StrategyApplyScaleRatio; StrategyApplyScaleRatio; StrategyLocation;
                    UpdateAllowedDirection; StrategyUpdate] ].
Qed.

(** Scrolling to where the strategy already is needs no distance. *)
Lemma scrollTo_distance_current (w : Widget E) :
  let current := location (host (exec _updateIfNeed w)) in
  fst (scrollTo_distance
         (object (Some (- point_left current)) (Some (- point_top current))) w)
  = {| left := Some 0; top := Some 0 |}.
Proof.
  intros current. rewrite scrollTo_distance_value. fold current.
  destruct (useNative (options w)); unfold delta; simpl;
    rewrite !Z.opp_involutive, !Z.sub_diag; reflexivity.
Qed.

(** C5, as amended.  The distance of [scrollTo] is, per field, the
    current location minus the target (the current location where the
    target is undefined), negated by the second normalization; both are
    rescaled first when the strategy is not native.  When the distance
    has no non-zero component, [scrollBy] returns before any call and
    leaves the widget as it was, and [scrollTo] returns having called
    neither the strategy's [scrollBy] nor [_updateRtlConfig]: by then it
    has run [_updateIfNeed] and asked the strategy for its location (and
    scale ratio), nothing else.  Scrolling to the current position is
    such a case. *)
Theorem scroll_short_circuit (w : Widget E) (target : Location) :
  let e := host (exec _updateIfNeed w) in
  let n := fst (_normalizeLocation target w) in
  let d := fst (scrollTo_distance target w) in
  let w1 := snd (scrollTo_distance target w) in
  let current := location e in
  d = (if useNative (options w) then delta current n
       else delta (scalePoint e current) (scaleLoc e n))
  /\ (falsy (top n) && falsy (left n) = true -> scrollBy target w = (tt, w))
  /\ (falsy (top d) && falsy (left d) = true ->
        scrollTo target w = (tt, w1)
        /\ options w1 = options w
        /\ _locked w1 = _locked w
        /\ _rtlConfig w1 = _rtlConfig w
        /\ host w1 = e
        /\ exists preparation,
             calls w1 = (preparation ++ calls w)%list /\ forallb isPreparation preparation = true)
  /\ scrollTo (object (Some (- point_left current)) (Some (- point_top current))) w
     = (tt, snd (scrollTo_distance
                   (object (Some (- point_left current)) (Some (- point_top current))) w)).
Proof.
  intros e n d w1 current. repeat split.
  - apply scrollTo_distance_value.
  - apply scrollBy_nothing.
  - now apply scrollTo_nothing.
  - apply scrollTo_distance_state.
  - apply scrollTo_distance_state.
  - apply scrollTo_distance_state.
  - apply scrollTo_distance_state.
  - apply scrollTo_distance_state.
  - apply scrollTo_nothing. unfold current, e.
    now rewrite scrollTo_distance_current.
Qed.

(** ** Where [scrollTo] leaves the strategy *)

Lemma scrollTo_skipUpdating (w : Widget E) (target : Location) :
  skipUpdating (_rtlConfig w) = true ->
  _rtlConfig (exec (scrollTo target) w) = _rtlConfig w.
Proof.
  intros Hs.
  destruct (scrollTo_distance_state w target) as (_ & _ & Hc & _).
  set (d := fst (scrollTo_distance target w)).
  destruct (falsy (top d) && falsy (left d)) eqn:Hd; unfold exec.
  - rewrite (scrollTo_nothing w target Hd). exact Hc.
  - rewrite (scrollTo_performed w target Hd).
    rewrite updateRtlConfig_skipped.
    + simpl. exact Hc.
    + right; right. simpl. now rewrite Hc.
Qed.

Lemma scrollTo_location (w : Widget E) (l t : option Z) :
  movesBy -> useNative (options w) = true ->
  let current := location (host (exec _updateIfNeed w)) in
  location (host (exec (scrollTo (object l t)) w))
  = {| point_left := match l with Some v => - v | None => point_left current end;
       point_top := match t with Some v => - v | None => point_top current end |}.
Proof.
  intros Hmoves Hnative. cbv zeta.
  destruct (scrollTo_distance_state w (object l t)) as (_ & _ & _ & Hh & _).
  pose proof (scrollTo_distance_value w (object l t)) as Hv.
  rewrite Hnative in Hv. cbv zeta in Hv.
  remember (location (host (exec _updateIfNeed w))) as current eqn:Hcur.
  set (d := fst (scrollTo_distance (object l t) w)) in *.
  destruct (falsy (top d) && falsy (left d)) eqn:Hd; unfold exec.
  - rewrite (scrollTo_nothing w (object l t) Hd). simpl snd.
    rewrite Hh, <- Hcur.
    rewrite Hv in Hd. apply andb_prop in Hd as [Ht Hl].
    destruct current as [cl ct]. destruct l, t; simpl in *;
      apply Z.eqb_eq in Ht, Hl; f_equal; lia.
  - rewrite (scrollTo_performed w (object l t) Hd).
    rewrite (updateRtlConfig_host _). simpl.
    rewrite Hmoves, Hh, <- Hcur. fold d. rewrite Hv.
    destruct current as [cl ct]. destruct l, t; simpl; f_equal; lia.
Qed.

(** ** Restoring the position in RTL mode *)

Lemma deferUpdate_result (w : Widget E) :
  let el := element (host w) in
  let max := Element.scrollWidth el - Element.clientWidth el in
  let c := _rtlConfig w in
  updateRtlPosition_deferUpdate w
  = if max - scrollRight c <=? 0
    then (0, exec (set_scrollRight max) w)
    else (max - scrollRight c, w).
Proof.
  intros el max c.
  unfold updateRtlPosition_deferUpdate, _getMaxOffset, _container, rtlConfig,
    bind, ret, exec. simpl. fold el. fold max. fold c.
  destruct (max - scrollRight c <=? 0); reflexivity.
Qed.

Lemma set_skipUpdating_scrollRight (w : Widget E) (v : bool) :
  scrollRight (_rtlConfig (exec (set_skipUpdating v) w)) = scrollRight (_rtlConfig w).
Proof. reflexivity. Qed.

Lemma deferRender_scrollRight (w : Widget E) (target : Z) :
  scrollRight (_rtlConfig (exec (updateRtlPosition_deferRender target) w))
  = scrollRight (_rtlConfig w).
Proof.
  unfold updateRtlPosition_deferRender. rewrite exec_bind.
  change (_rtlConfig w) with (_rtlConfig (exec scrollLeft w)).
  generalize (exec scrollLeft w) as w1. intros w1.
  destruct (negb _); [| reflexivity].
  rewrite !exec_bind, set_skipUpdating_scrollRight.
  rewrite scrollTo_skipUpdating by reflexivity.
  reflexivity.
Qed.

Lemma deferRender_scrollLeft (w : Widget E) (target : Z) :
  movesBy -> useNative (options w) = true ->
  fst (scrollLeft (exec (updateRtlPosition_deferRender target) w)) = target.
Proof.
  intros Hmoves Hnative.
  change (fst (scrollLeft ?x)) with (- point_left (location (host x))).
  unfold updateRtlPosition_deferRender. rewrite exec_bind.
  change (fst (scrollLeft w)) with (- point_left (location (host w))).
  destruct (Z.eqb_spec (- point_left (location (host w))) target) as [Heq | Hne]; simpl.
  - exact Heq.
  - rewrite !exec_bind.
    change (host (exec (set_skipUpdating false) ?x)) with (host x).
    rewrite (scrollTo_location _ (Some target) None Hmoves) by exact Hnative.
    simpl. lia.
Qed.

(** C6.  In RTL mode with a direction other than vertical,
    [_updateRtlPosition] restores the left offset
    [(scrollWidth - clientWidth) - scrollRight]; when that value is not
    positive the left offset is 0 and [scrollRight] is reset to
    [scrollWidth - clientWidth].  The offset is restored by [scrollTo],
    which leaves [scrollRight] alone; with a strategy that moves by the
    distance it is given, the left offset afterwards is the restored
    one. *)
Theorem updateRtlPosition_clamps (w : Widget E) :
  rtlEnabled (options w) = true ->
  direction (options w) <> VERTICAL ->
  let w0 := exec _updateBounds w in
  let el := element (host w0) in
  let max := Element.scrollWidth el - Element.clientWidth el in
  let sr := scrollRight (_rtlConfig w) in
  let restored := fst (updateRtlPosition_deferUpdate w0) in
  let w' := exec _updateRtlPosition w in
  (0 < max - sr -> restored = max - sr /\ scrollRight (_rtlConfig w') = sr)
  /\ (max - sr <= 0 -> restored = 0 /\ scrollRight (_rtlConfig w') = max)
  /\ _updateRtlPosition w
     = updateRtlPosition_deferRender restored (snd (updateRtlPosition_deferUpdate w0))
  /\ (movesBy -> useNative (options w) = true -> fst (scrollLeft w') = restored).
Proof.
  intros Hr Hd w0 el max sr restored w'.
  assert (Hrun : _updateRtlPosition w
                 = updateRtlPosition_deferRender restored
                     (snd (updateRtlPosition_deferUpdate w0))).
  { unfold _updateRtlPosition, bind at 1.
    change (_updateBounds w) with (tt, w0).
    unfold bind at 1.
    rewrite (isHorizontalAndRtlEnabled_true w0 Hr Hd).
    unfold bind. subst restored.
    destruct (updateRtlPosition_deferUpdate w0). reflexivity. }
  assert (Hw' : w' = exec (updateRtlPosition_deferRender restored)
                       (snd (updateRtlPosition_deferUpdate w0))).
  { unfold w', exec. now rewrite Hrun. }
  pose proof (deferUpdate_result w0) as Hdu. cbv zeta in Hdu.
  fold el in Hdu. fold max in Hdu.
  change (scrollRight (_rtlConfig w0)) with sr in Hdu.
  repeat split.
  - subst restored. rewrite Hdu.
    destruct (Z.leb_spec (max - sr) 0); [lia | reflexivity].
  - rewrite Hw', deferRender_scrollRight, Hdu.
    destruct (Z.leb_spec (max - sr) 0); [lia | reflexivity].
  - subst restored. rewrite Hdu.
    destruct (Z.leb_spec (max - sr) 0); [reflexivity | lia].
  - rewrite Hw', deferRender_scrollRight, Hdu.
    destruct (Z.leb_spec (max - sr) 0); [reflexivity | lia].
  - exact Hrun.
  - intros Hmoves Hnative. rewrite Hw'.
    apply deferRender_scrollLeft; [exact Hmoves |].
    rewrite Hdu. destruct (max - sr <=? 0); exact Hnative.
Qed.

(** ** Changing the direction *)

Lemma hasWindow_true (w : Widget E) :
  window (host w) <> None -> hasWindow w = (true, w).
Proof.
  intros Hw. unfold hasWindow. destruct (window (host w)); [reflexivity | contradiction].
Qed.

Lemma resetInactiveDirection_run (w : Widget E) :
  window (host w) <> None ->
  (direction (options w) = VERTICAL ->
     _resetInactiveDirection w
     = bind scrollOffset
         (fun offset => scrollTo (object (Some 0) (Some (point_top offset)))) w)
  /\ (direction (options w) = HORIZONTAL ->
        _resetInactiveDirection w
        = bind scrollOffset
            (fun offset => scrollTo (object (Some (point_left offset)) (Some 0))) w).
Proof.
  intros Hw. split; intros Hd;
    unfold _resetInactiveDirection, _getInactiveProp, bind at 1, bind at 1, readOption;
    rewrite Hd; simpl; unfold bind at 1; rewrite (hasWindow_true w Hw); reflexivity.
Qed.







End Scrolling.

Section Totality.

Context {E : Type} {H : Host E}.


End Totality.

(** ** The sample host *)

Lemma page_movesBy : movesBy (E := Page).
Proof.
  intros d p. unfold location, scrollBy_strategy, Page_Host, scrollPage. simpl.
  f_equal; lia.
Qed.

Lemma vertical_is_not_horizontal : HORIZONTAL <> VERTICAL.
Proof. discriminate. Qed.

(** The value examples of the specification. *)
Example normalize_5_horizontal :
  fst (_normalizeLocation (Scalar 5)
         (sampleWidget false HORIZONTAL None (mkRtlConfig 0 400 1 false)))
  = {| left := Some (-5); top := None |}.
Proof. reflexivity. Qed.

Example normalize_5_vertical :
  fst (_normalizeLocation (Scalar 5)
         (sampleWidget false VERTICAL None (mkRtlConfig 0 400 1 false)))
  = {| left := None; top := Some (-5) |}.
Proof. reflexivity. Qed.

Example normalize_left_top_and_x_y :
  let w := sampleWidget false "both" None (mkRtlConfig 0 400 1 false) in
  fst (_normalizeLocation (PlainObject (Some 3) None (Some 4) None) w)
  = {| left := Some (-3); top := Some (-4) |}
  /\ fst (_normalizeLocation (PlainObject None (Some 3) None (Some 4)) w)
     = {| left := Some (-3); top := Some (-4) |}.
Proof. split; reflexivity. Qed.

Lemma normalizeLocation_rule_witness :
  fst (_normalizeLocation (Scalar 5)
         (sampleWidget true HORIZONTAL None (mkRtlConfig 0 400 1 false)))
  = {| left := Some (-5); top := None |}.
Proof.
  exact (proj1 (proj2 (proj2 (normalizeLocation_rule
                                (sampleWidget true HORIZONTAL None
                                   (mkRtlConfig 0 400 1 false))
                                (Scalar 5)))) eq_refl).
Defined.

(** C5 as stated fails for [scrollTo]: scrolling the sample page to the
    offset it already has (30, 70) needs no distance, and still the
    strategy has been updated and asked for its location. *)
Lemma scrollTo_current_position_updates :
  let w := sampleWidget false "both" None (mkRtlConfig 0 400 1 false) in
  let target := object (Some 30) (Some 70) in
  fst (scrollTo_distance target w) = {| left := Some 0; top := Some 0 |}
  /\ calls w = []
  /\ calls (exec (scrollTo target) w)
     = [StrategyLocation; UpdateAllowedDirection; StrategyUpdate]
  /\ scrollTo target w <> (tt, w).
Proof.
  repeat split.
  intros Hsame. apply (f_equal (fun r => calls (snd r))) in Hsame.
  discriminate Hsame.
Qed.

Lemma scroll_short_circuit_witness :
  let w := sampleWidget false "both" None (mkRtlConfig 0 400 1 false) in
  let target := object (Some 30) (Some 70) in
  scrollTo target w = (tt, snd (scrollTo_distance target w))
  /\ host (snd (scrollTo_distance target w)) = host (exec _updateIfNeed w).
Proof.
  intros w target.
  destruct (scroll_short_circuit w target) as (_ & _ & Hto & _).
  destruct (Hto eq_refl) as (Hrun & _ & _ & _ & Hhost & _).
  split; [exact Hrun | exact Hhost].
Defined.

(** After the container has grown from 300 to 400 with a [scrollRight]
    of 700, the left offset would be 1000 - 400 - 700 = -100. *)
Lemma updateRtlPosition_clamps_witness :
  let w := sampleWidget true HORIZONTAL (Some (mkWindow 1)) (mkRtlConfig 700 300 1 false) in
  fst (updateRtlPosition_deferUpdate (exec _updateBounds w)) = 0
  /\ scrollRight (_rtlConfig (exec _updateRtlPosition w)) = 600.
Proof.
  intros w.
  refine (proj1 (proj2 (updateRtlPosition_clamps w eq_refl vertical_is_not_horizontal)) _).
  simpl. lia.
Defined.



Lemma disabled_stays_locked_witness :
  let w := exec (bind _init (fun _ => _render))
             (exec (set_options (assign (set_disabled true)))
                (sampleWidget false "both" None (mkRtlConfig 0 400 1 false))) in
  fst (_isLocked w) = true /\ _unlock w = (tt, w).
Proof.
  intros w. split.
  - exact (proj1 (proj2 (disabled_stays_locked w)) (reachable_rendered _) eq_refl).
  - exact (proj2 (proj1 (disabled_stays_locked w) eq_refl)).
Defined.




(** The corrective scroll of a direction change only asks: behind a
    strategy that does not follow, the left offset of the sample page
    stays 30 although the distance to 0 has been handed over. *)
Lemma corrective_scroll_needs_strategy :
  let w := mkWidget (mkOptions false "both" false true false false) false false
             (mkRtlConfig 0 400 1 false) None
             (mkStuck (samplePage (Some (mkWindow 1)))) [] in
  let w' := exec (setOption (set_direction VERTICAL)) w in
  In (StrategyScrollBy {| left := Some 30; top := Some 0 |}) (calls w')
  /\ point_left (fst (scrollOffset w')) = 30.
Proof. split; [simpl; tauto | reflexivity]. Qed.

End ScrollableSpec.

(* ===================================================================== *)
(** * Part IV: more of the scrollable                                     *)
(* ===================================================================== *)

Module ScrollableMore.

Import Scrollable.
Import ScrollableSpec.

Section Settings.

Context {E : Type} {H : Host E}.

(** ** What scrolling leaves alone: the options and the saved offset *)

Lemma normalizeLocation_preserves {X : Type} (f : Widget E -> X) l :
  preserves f (_normalizeLocation l).
Proof. intros w. now rewrite normalizeLocation_state. Qed.
#[local] Hint Resolve normalizeLocation_preserves : frame.

Lemma update_settings : preserves (E := E) settings update.
Proof. unfold update, _updateAllowedDirection. frame. Qed.
#[local] Hint Resolve update_settings : frame.

Lemma updateIfNeed_settings : preserves (E := E) settings _updateIfNeed.
Proof. unfold _updateIfNeed. frame. Qed.
#[local] Hint Resolve updateIfNeed_settings : frame.

Lemma updateRtlConfig_settings : preserves (E := E) settings _updateRtlConfig.
Proof.
  unfold _updateRtlConfig, _isHorizontalAndRtlEnabled, _getMaxOffset,
    set_scrollRight.
  frame.
Qed.
#[local] Hint Resolve updateRtlConfig_settings : frame.

Lemma scrollTo_distance_settings l : preserves (E := E) settings (scrollTo_distance l).
Proof. unfold scrollTo_distance. frame. Qed.
#[local] Hint Resolve scrollTo_distance_settings : frame.

Lemma scrollTo_settings l : preserves (E := E) settings (scrollTo l).
Proof. unfold scrollTo. frame. Qed.
#[local] Hint Resolve scrollTo_settings : frame.

Lemma scrollBy_settings l : preserves (E := E) settings (scrollBy l).
Proof. unfold scrollBy. frame. Qed.
#[local] Hint Resolve scrollBy_settings : frame.

Lemma updateRtlPosition_settings : preserves (E := E) settings _updateRtlPosition.
Proof.
  unfold _updateRtlPosition, _updateBounds, _isHorizontalAndRtlEnabled,
    updateRtlPosition_deferUpdate, updateRtlPosition_deferRender,
    _getMaxOffset, set_scrollRight, set_skipUpdating, scrollLeft, scrollOffset.
  frame.
Qed.
#[local] Hint Resolve updateRtlPosition_settings : frame.

Lemma settings_options {A : Type} (m : M A) (w : Widget E) :
  preserves (E := E) settings m -> options (exec m w) = options w.
Proof. intros Hm. specialize (Hm w). now injection Hm. Qed.

Lemma settings_saved {A : Type} (m : M A) (w : Widget E) :
  preserves (E := E) settings m ->
  _savedScrollOffset (exec m w) = _savedScrollOffset w.
Proof. intros Hm. specialize (Hm w). now injection Hm. Qed.

Lemma normalizeLocation_options (w1 w2 : Widget E) l :
  direction (options w1) = direction (options w2) ->
  fst (_normalizeLocation l w1) = fst (_normalizeLocation l w2).
Proof.
  intros Hd. destruct l; simpl; [| reflexivity].
  unfold bind, readOption, ret. simpl. now rewrite Hd.
Qed.

Lemma updateIfNeed_manually (w : Widget E) :
  updateManually (options w) = true -> _updateIfNeed w = (tt, w).
Proof. intros Hm. unfold _updateIfNeed, bind, readOption. now rewrite Hm. Qed.

(** ** Normalizing *)

(** X1.  Normalizing the normalized location of an object gives back
    its [left] (or [x]) and its [top] (or [y]): the second normalization
    of [scrollTo] undoes the sign change of the first. *)
Theorem normalizeLocation_twice (w : Widget E) (l x t y : option Z) :
  let n := fst (_normalizeLocation (PlainObject l x t y) w) in
  fst (_normalizeLocation (object (left n) (top n)) w)
  = {| left := ensureDefined l x; top := ensureDefined t y |}.
Proof.
  simpl. unfold ensureDefined.
  destruct l, x, t, y; simpl; rewrite ?Z.opp_involutive; reflexivity.
Qed.

(** X2.  A number never moves the axis that [_getInactiveProp] names:
    the normalized location is undefined there and [-v] on the other
    axis; when no axis is inactive it is [-v] on both. *)
Theorem scalar_skips_inactive_axis (w : Widget E) (v : Z) :
  let n := fst (_normalizeLocation (Scalar v) w) in
  match fst (_getInactiveProp w) with
  | Some prop_left => left n = None /\ top n = Some (- v)
  | Some prop_top => left n = Some (- v) /\ top n = None
  | None => left n = Some (- v) /\ top n = Some (- v)
  end.
Proof.
  unfold _normalizeLocation, _getInactiveProp, bind, readOption, ret, differs.
  simpl.
  destruct (String.eqb_spec (direction (options w)) VERTICAL) as [Hv | Hv]; simpl.
  - rewrite Hv. split; reflexivity.
  - destruct (String.eqb_spec (direction (options w)) HORIZONTAL); simpl;
      split; reflexivity.
Qed.

(** X3.  The distance [scrollTo] computes always has both fields
    defined, and it is 0 on an axis the normalized target leaves
    undefined, whatever the strategy reports. *)
Theorem scrollTo_distance_defined (w : Widget E) (target : Location) :
  let n := fst (_normalizeLocation target w) in
  let d := fst (scrollTo_distance target w) in
  (exists l t, d = {| left := Some l; top := Some t |})
  /\ (left n = None -> left d = Some 0)
  /\ (top n = None -> top d = Some 0).
Proof.
  cbv zeta. rewrite scrollTo_distance_value. cbv zeta.
  set (n := fst (_normalizeLocation target w)).
  destruct (useNative (options w)); unfold delta.
  - split; [eexists; eexists; reflexivity |].
    split; intros ->; simpl; now rewrite Z.sub_diag.
  - split; [eexists; eexists; reflexivity |].
    split; intros Hn; simpl; rewrite Hn; simpl; now rewrite Z.sub_diag.
Qed.

(** ** Where a scroll ends *)

Lemma scrollTo_location_any (w : Widget E) (target : Location) :
  movesBy -> useNative (options w) = true ->
  let n := fst (_normalizeLocation target w) in
  let before := location (host (exec _updateIfNeed w)) in
  location (host (exec (scrollTo target) w))
  = {| point_left := match left n with Some v => v | None => point_left before end;
       point_top := match top n with Some v => v | None => point_top before end |}.
Proof.
  intros Hmoves Hnative. cbv zeta.
  destruct (scrollTo_distance_state w target) as (_ & _ & _ & Hh & _).
  pose proof (scrollTo_distance_value w target) as Hv.
  rewrite Hnative in Hv. cbv zeta in Hv.
  remember (location (host (exec _updateIfNeed w))) as before eqn:Hb.
  remember (fst (_normalizeLocation target w)) as n eqn:Hn.
  set (d := fst (scrollTo_distance target w)) in *.
  destruct (falsy (top d) && falsy (left d)) eqn:Hd; unfold exec.
  - rewrite (scrollTo_nothing w target Hd). simpl snd.
    rewrite Hh, <- Hb.
    rewrite Hv in Hd. apply andb_prop in Hd as [Ht Hl].
    destruct before as [cl ct]. destruct n as [[nl |] [nt |]]; simpl in *;
      apply Z.eqb_eq in Ht, Hl; f_equal; lia.
  - rewrite (scrollTo_performed w target Hd).
    rewrite (updateRtlConfig_host _). simpl.
    rewrite Hmoves, Hh, <- Hb. fold d. rewrite Hv.
    destruct before as [cl ct]. destruct n as [[nl |] [nt |]]; simpl; f_equal; lia.
Qed.

(** X4.  With a native strategy that moves by the distance it is given,
    and for whole pixels within the safe range, [scrollTo] ends where the
    normalized target says on every axis the target defines and where
    the strategy was (after [_updateIfNeed]) on the others; in
    particular the scroll offset after [scrollTo({ left, top })] is
    [(left, top)]. *)
Theorem scrollTo_reaches_target (w : Widget E) (target : Location) :
  movesBy -> useNative (options w) = true ->
  safePoint (location (host (exec _updateIfNeed w))) ->
  safeLoc (fst (_normalizeLocation target w)) ->
  let n := fst (_normalizeLocation target w) in
  let before := location (host (exec _updateIfNeed w)) in
  location (host (exec (scrollTo target) w))
  = {| point_left := match left n with Some v => v | None => point_left before end;
       point_top := match top n with Some v => v | None => point_top before end |}
  /\ (forall l t, target = object (Some l) (Some t) ->
        fst (scrollOffset (exec (scrollTo target) w))
        = {| point_left := l; point_top := t |}).
Proof.
  intros Hmoves Hnative _ _ n before. split.
  - now apply scrollTo_location_any.
  - intros l t ->.
    change (fst (scrollOffset ?x))
      with {| point_left := - point_left (location (host x));
              point_top := - point_top (location (host x)) |}.
    rewrite (scrollTo_location_any w _ Hmoves Hnative). simpl.
    now rewrite !Z.opp_involutive.
Qed.

Lemma scrollTo_distance_calls_manual (w : Widget E) (target : Location) :
  updateManually (options w) = true -> useNative (options w) = true ->
  calls (snd (scrollTo_distance target w)) = StrategyLocation :: calls w.
Proof.
  destruct w as [[rtl dir dis native manually sim] initial locked c saved e cs].
  simpl. intros -> ->. destruct target; reflexivity.
Qed.

(** X5.  With such a strategy, [updateManually] set and whole pixels
    within the safe range, repeating a [scrollTo] finds the distance 0:
    the second call asks the strategy for its location and nothing
    else. *)
Theorem scrollTo_twice (w : Widget E) (target : Location) :
  movesBy -> useNative (options w) = true -> updateManually (options w) = true ->
  safePoint (location (host w)) ->
  safeLoc (fst (_normalizeLocation target w)) ->
  let w1 := exec (scrollTo target) w in
  fst (scrollTo_distance target w1) = {| left := Some 0; top := Some 0 |}
  /\ calls (exec (scrollTo target) w1) = StrategyLocation :: calls w1
  /\ host (exec (scrollTo target) w1) = host w1.
Proof.
  intros Hmoves Hnative Hmanually _ _ w1.
  assert (Ho : options w1 = options w)
    by (apply settings_options, scrollTo_settings).
  assert (Hnative1 : useNative (options w1) = true) by now rewrite Ho.
  assert (Hmanually1 : updateManually (options w1) = true) by now rewrite Ho.
  assert (Hd : fst (scrollTo_distance target w1) = {| left := Some 0; top := Some 0 |}).
  { rewrite scrollTo_distance_value. cbv zeta. rewrite Hnative1.
    unfold exec at 1. rewrite (updateIfNeed_manually w1 Hmanually1). simpl snd.
    rewrite (normalizeLocation_options w1 w target) by now rewrite Ho.
    unfold w1. rewrite (scrollTo_location_any w target Hmoves Hnative).
    unfold delta. simpl.
    destruct (fst (_normalizeLocation target w)) as [[nl |] [nt |]]; simpl;
      rewrite !Z.sub_diag; reflexivity. }
  split; [exact Hd |].
  assert (Hnone : falsy (top (fst (scrollTo_distance target w1)))
                  && falsy (left (fst (scrollTo_distance target w1))) = true)
    by now rewrite Hd.
  unfold exec. rewrite (scrollTo_nothing w1 target Hnone). simpl snd.
  split.
  - now apply scrollTo_distance_calls_manual.
  - destruct (scrollTo_distance_state w1 target) as (_ & _ & _ & Hh & _).
    rewrite Hh. unfold exec. now rewrite (updateIfNeed_manually w1 Hmanually1).
Qed.

Lemma updateRtlConfig_calls : preserves (E := E) calls _updateRtlConfig.
Proof.
  unfold _updateRtlConfig, _isHorizontalAndRtlEnabled, _getMaxOffset,
    set_scrollRight.
  frame.
Qed.

(** X6.  [scrollBy] hands the strategy the normalized distance exactly
    once, after an update unless [updateManually] is set; for a distance
    without a non-zero field (0, an object without fields) it calls
    nothing and leaves the outside world alone. *)
Theorem scrollBy_calls (w : Widget E) (distance : Location) :
  let n := fst (_normalizeLocation distance w) in
  let w' := exec (scrollBy distance) w in
  (falsy (top n) && falsy (left n) = true ->
     calls w' = calls w /\ host w' = host w)
  /\ (falsy (top n) && falsy (left n) = false ->
        calls w'
        = StrategyScrollBy n
            :: (if updateManually (options w) then calls w
                else UpdateAllowedDirection :: StrategyUpdate :: calls w)
        /\ host w' = scrollBy_strategy n (host (exec _updateIfNeed w))).
Proof.
  intros n w'. split; intros Hn; unfold w', exec.
  - rewrite (scrollBy_nothing w distance Hn). split; reflexivity.
  - rewrite (scrollBy_performed w distance Hn).
    rewrite (updateRtlConfig_calls _), (updateRtlConfig_host _). fold n.
    clearbody n. clear Hn w'.
    destruct w as [[rtl dir dis native manually sim] initial locked c saved e cs].
    destruct manually; split; reflexivity.
Qed.

Lemma scrollBy_location (w : Widget E) (distance : Location) :
  movesBy -> updateManually (options w) = true ->
  location (host (exec (scrollBy distance) w))
  = movedBy (location (host w)) (fst (_normalizeLocation distance w)).
Proof.
  intros Hmoves Hmanually.
  set (n := fst (_normalizeLocation distance w)).
  destruct (falsy (top n) && falsy (left n)) eqn:Hn; unfold exec.
  - rewrite (scrollBy_nothing w distance Hn). simpl snd.
    apply andb_prop in Hn as [Ht Hl]. unfold movedBy.
    destruct (location (host w)) as [cl ct].
    destruct n as [[nl |] [nt |]]; simpl in *;
      try apply Z.eqb_eq in Ht; try apply Z.eqb_eq in Hl; f_equal; lia.
  - rewrite (scrollBy_performed w distance Hn).
    rewrite (updateRtlConfig_host _). fold n.
    unfold exec, bind. rewrite (updateIfNeed_manually w Hmanually). simpl.
    now rewrite Hmoves.
Qed.

(** X7.  With a strategy that moves by the distance it is given and
    [updateManually] set, [scrollBy] moves the strategy by the
    normalized distance: the scroll offset grows by the distance on
    every axis the distance names and stays on the others. *)
Theorem scrollBy_moves (w : Widget E) (distance : Location) :
  movesBy -> updateManually (options w) = true ->
  let n := fst (_normalizeLocation distance w) in
  let before := fst (scrollOffset w) in
  fst (scrollOffset (exec (scrollBy distance) w))
  = {| point_left := point_left before
                     - match left n with Some v => v | None => 0 end;
       point_top := point_top before
                    - match top n with Some v => v | None => 0 end |}.
Proof.
  intros Hmoves Hmanually n before.
  change (fst (scrollOffset ?x))
    with {| point_left := - point_left (location (host x));
            point_top := - point_top (location (host x)) |}.
  rewrite (scrollBy_location w distance Hmoves Hmanually). fold n.
  unfold before, movedBy. simpl. f_equal; lia.
Qed.

(** X8.  Under the same conditions, and as long as the distances, their
    sum and the locations on the way are whole pixels within the safe
    range, two [scrollBy] of numbers end where one [scrollBy] of their
    sum ends, and a [scrollBy] followed by the opposite one ends where
    it started. *)
Theorem scrollBy_composes (w : Widget E) (a b : Z) :
  movesBy -> updateManually (options w) = true ->
  safePixel a -> safePixel b -> safePixel (a + b) ->
  safePoint (location (host w)) ->
  safePoint (location (host (exec (scrollBy (Scalar a)) w))) ->
  location (host (exec (scrollBy (Scalar b)) (exec (scrollBy (Scalar a)) w)))
  = location (host (exec (scrollBy (Scalar (a + b))) w))
  /\ location (host (exec (scrollBy (Scalar (- a))) (exec (scrollBy (Scalar a)) w)))
     = location (host w).
Proof.
  intros Hmoves Hmanually _ _ _ _ _.
  set (w1 := exec (scrollBy (Scalar a)) w).
  assert (Ho : options w1 = options w)
    by (apply settings_options, scrollBy_settings).
  assert (Hmanually1 : updateManually (options w1) = true) by now rewrite Ho.
  rewrite !(scrollBy_location w1 _ Hmoves Hmanually1).
  rewrite !(normalizeLocation_options w1 w) by now rewrite Ho.
  unfold w1. rewrite !(scrollBy_location w _ Hmoves Hmanually).
  unfold movedBy, _normalizeLocation, bind, readOption, ret. simpl.
  destruct (location (host w)) as [cl ct].
  destruct (differs (direction (options w)) VERTICAL),
           (differs (direction (options w)) HORIZONTAL);
    simpl; split; f_equal; lia.
Qed.

(** X22.  Under the same conditions and with a native strategy,
    [scrollTo({ left, top })] ends where [scrollBy] of the difference
    between the target and the current scroll offset ends. *)
Theorem scrollTo_as_scrollBy (w : Widget E) (l t : Z) :
  movesBy -> useNative (options w) = true -> updateManually (options w) = true ->
  let offset := fst (scrollOffset w) in
  location (host (exec (scrollTo (object (Some l) (Some t))) w))
  = location (host (exec (scrollBy (object (Some (l - point_left offset))
                                           (Some (t - point_top offset)))) w)).
Proof.
  intros Hmoves Hnative Hmanually offset.
  rewrite (scrollTo_location_any w _ Hmoves Hnative).
  rewrite (scrollBy_location w _ Hmoves Hmanually).
  unfold movedBy, offset. simpl.
  destruct (location (host w)) as [cl ct]. simpl. f_equal; lia.
Qed.

(** ** The RTL configuration *)

Lemma updateRtlConfig_run (w : Widget E) :
  rtlEnabled (options w) = true ->
  direction (options w) <> VERTICAL ->
  skipUpdating (_rtlConfig w) = false ->
  let c := _rtlConfig w in
  let el := element (host w) in
  let ratio := fst (_getWindowDevicePixelRatio w) in
  exec _updateRtlConfig w
  = exec (set_rtlConfig
            (mkRtlConfig
               (if (windowPixelRatio c =? ratio)
                   && (clientWidth c =? Element.clientWidth el)
                then Element.scrollWidth el - Element.clientWidth el
                     - Element.scrollLeft el
                else scrollRight c)
               (Element.clientWidth el) ratio false)) w.
Proof.
  intros Hr Hd Hs. cbv zeta.
  apply differs_true in Hd.
  destruct w as [[rtl dir dis native manually sim] initial locked
                   [sr cw ratio0 skip] saved e cs].
  simpl in *. subst rtl skip.
  unfold exec, _updateRtlConfig, _isHorizontalAndRtlEnabled, _container,
    _getWindowDevicePixelRatio, _getMaxOffset, set_scrollRight, set_rtlConfig,
    rtlConfig, bind, readOption, ret.
  simpl. rewrite Hd. simpl.
  destruct ((ratio0 =? _) && (cw =? _)); reflexivity.
Qed.

(** X9.  In RTL mode with a direction other than vertical and no
    corrective scroll under way, the old [scrollRight] survives one
    update only: after two updates in the same surroundings it is
    [(scrollWidth - clientWidth) - scrollLeft], whatever was stored. *)
Theorem updateRtlConfig_twice (w : Widget E) :
  rtlEnabled (options w) = true ->
  direction (options w) <> VERTICAL ->
  skipUpdating (_rtlConfig w) = false ->
  let el := element (host w) in
  scrollRight (_rtlConfig (exec _updateRtlConfig (exec _updateRtlConfig w)))
  = Element.scrollWidth el - Element.clientWidth el - Element.scrollLeft el.
Proof.
  intros Hr Hd Hs el.
  rewrite (updateRtlConfig_run w Hr Hd Hs). cbv zeta.
  set (w1 := exec (set_rtlConfig _) w).
  rewrite (updateRtlConfig_run w1 Hr Hd eq_refl). cbv zeta. simpl.
  fold el. now rewrite !Z.eqb_refl.
Qed.

(** ** The corrective scroll is never left under way *)

Lemma updateRtlConfig_notSkipping : keeps (E := E) notSkipping _updateRtlConfig.
Proof.
  intros w Hw. unfold notSkipping in *.
  destruct (rtlEnabled (options w)) eqn:Hr;
    [| now rewrite updateRtlConfig_skipped by now left ].
  destruct (String.eqb_spec (direction (options w)) VERTICAL) as [Hd | Hd];
    [ now rewrite updateRtlConfig_skipped by (right; now left) |].
  change (snd (_updateRtlConfig w)) with (exec _updateRtlConfig w).
  now rewrite (updateRtlConfig_run w Hr Hd Hw).
Qed.

Lemma scrollTo_notSkipping l : keeps (E := E) notSkipping (scrollTo l).
Proof.
  intros w Hw.
  destruct (scrollTo_distance_state w l) as (_ & _ & Hc & _).
  set (d := fst (scrollTo_distance l w)).
  destruct (falsy (top d) && falsy (left d)) eqn:Hd.
  - rewrite (scrollTo_nothing w l Hd). unfold notSkipping. simpl.
    now rewrite Hc.
  - rewrite (scrollTo_performed w l Hd).
    apply updateRtlConfig_notSkipping. unfold notSkipping. simpl.
    now rewrite Hc.
Qed.

Lemma scrollBy_notSkipping l : keeps (E := E) notSkipping (scrollBy l).
Proof.
  intros w Hw.
  set (n := fst (_normalizeLocation l w)).
  destruct (falsy (top n) && falsy (left n)) eqn:Hn.
  - now rewrite (scrollBy_nothing w l Hn).
  - rewrite (scrollBy_performed w l Hn).
    apply updateRtlConfig_notSkipping. unfold notSkipping in *.
    destruct w as [[rtl dir dis native manually sim] initial locked c saved e cs].
    simpl in *. destruct manually; exact Hw.
Qed.

Lemma deferRender_notSkipping v :
  keeps (E := E) notSkipping (updateRtlPosition_deferRender v).
Proof.
  intros w Hw. change (snd (?m w)) with (exec m w).
  unfold updateRtlPosition_deferRender. rewrite exec_bind.
  destruct (negb _).
  - rewrite !exec_bind. reflexivity.
  - exact Hw.
Qed.

Lemma updateRtlPosition_notSkipping : keeps (E := E) notSkipping _updateRtlPosition.
Proof.
  intros w Hw. change (snd (?m w)) with (exec m w).
  unfold _updateRtlPosition. rewrite !exec_bind.
  destruct (fst (_isHorizontalAndRtlEnabled _)); [| exact Hw].
  rewrite exec_bind.
  apply deferRender_notSkipping.
  unfold updateRtlPosition_deferUpdate. rewrite !exec_bind.
  destruct (_ <=? 0); [rewrite !exec_bind |]; exact Hw.
Qed.

Lemma render_notSkipping (w : Widget E) : notSkipping (exec _render w).
Proof.
  unfold _render. rewrite !exec_bind.
  apply updateRtlPosition_notSkipping. reflexivity.
Qed.

Lemma getInactiveProp_state (w : Widget E) : exec _getInactiveProp w = w.
Proof.
  unfold exec, _getInactiveProp, bind, readOption, ret.
  destruct (String.eqb _ VERTICAL); [reflexivity |].
  destruct (String.eqb _ HORIZONTAL); reflexivity.
Qed.

Lemma resetInactiveDirection_notSkipping :
  keeps (E := E) notSkipping _resetInactiveDirection.
Proof.
  intros w Hw. change (snd (?m w)) with (exec m w).
  unfold _resetInactiveDirection. rewrite exec_bind, getInactiveProp_state.
  destruct (fst (_getInactiveProp w)) as [p |]; [| exact Hw].
  rewrite exec_bind. destruct (negb _); [exact Hw |].
  rewrite exec_bind. apply scrollTo_notSkipping. exact Hw.
Qed.

Lemma optionChanged_notSkipping name : keeps (E := E) notSkipping (_optionChanged name).
Proof.
  intros w Hw. change (snd (?m w)) with (exec m w).
  unfold _optionChanged.
  destruct (oneOf name _); [exact Hw |].
  destruct (String.eqb name "direction").
  { rewrite exec_bind. now apply resetInactiveDirection_notSkipping. }
  destruct (String.eqb name "useNative").
  { rewrite exec_bind. unfold notSkipping, exec, _invalidate, call. simpl.
    unfold _setUseSimulatedScrollbar.
    destruct (negb (initialUseSimulatedScrollbar w)); [| exact Hw].
    destruct (Bool.eqb _ _); exact Hw. }
  destruct (oneOf name _); [exact Hw |].
  destruct (String.eqb name "disabled").
  { rewrite exec_bind. unfold notSkipping, exec, call. simpl.
    unfold _renderDisabledState, _lock, _unlock, bind, readOption, set_locked, ret.
    simpl. destruct (disabled (options w)) eqn:Hdis; simpl;
      rewrite ?Hdis; simpl; exact Hw. }
  destruct (String.eqb name "updateManually"); [exact Hw |].
  destruct (String.eqb name "width"); [| exact Hw].
  rewrite exec_bind. now apply updateRtlPosition_notSkipping.
Qed.

Lemma perform_notSkipping o : keeps (E := E) notSkipping (perform o).
Proof.
  intros w Hw. destruct o; simpl perform.
  - change (snd (?m w)) with (exec m w). unfold setOption. rewrite exec_bind.
    now apply optionChanged_notSkipping.
  - now apply scrollTo_notSkipping.
  - now apply scrollBy_notSkipping.
  - exact Hw.
  - exact Hw.
  - unfold notSkipping, _unlock, bind, readOption, set_locked, ret in *.
    destruct (negb (disabled (options w))); exact Hw.
  - change (snd (?m w)) with (exec m w). rewrite exec_bind.
    apply render_notSkipping.
  - change (snd (?m w)) with (exec m w). unfold _dimensionChanged.
    rewrite exec_bind. now apply updateRtlPosition_notSkipping.
  - change (snd (?m w)) with (exec m w). unfold _visibilityChanged.
    destruct visible.
    + rewrite !exec_bind.
      change (notSkipping (exec (set_savedScrollOffset None) ?x))
        with (notSkipping x).
      set (w2 := exec _updateRtlPosition (exec update w)).
      assert (Hw2 : notSkipping w2)
        by now apply updateRtlPosition_notSkipping.
      change (fst ((fun w0 : Widget E => (_savedScrollOffset w0, w0)) w2))
        with (_savedScrollOffset w2).
      change (exec (fun w0 : Widget E => (_savedScrollOffset w0, w0)) w2) with w2.
      destruct (_savedScrollOffset w2); [| exact Hw2].
      now apply scrollTo_notSkipping.
    + exact Hw.
  - exact Hw.
Qed.

(** X10.  In every state a rendered widget reaches, [skipUpdating] is
    false: the flag is set only while [_updateRtlPosition] restores the
    position, so [_updateRtlConfig] is never switched off for good. *)
Theorem reachable_notSkipping (w : Widget E) :
  reachable w -> skipUpdating (_rtlConfig w) = false.
Proof.
  induction 1 as [w | o w _ IH].
  - rewrite exec_bind. apply render_notSkipping.
  - now apply perform_notSkipping.
Qed.

(** ** Options *)



(** X17.  Changing the direction to anything but vertical or horizontal
    scrolls nothing: the widget is invalidated and that is all. *)
Theorem direction_change_without_inactive_axis (w : Widget E) (d : string) :
  d <> VERTICAL -> d <> HORIZONTAL ->
  let w' := exec (setOption (set_direction d)) w in
  direction (options w') = d
  /\ host w' = host w
  /\ calls w' = Invalidate :: calls w
  /\ _rtlConfig w' = _rtlConfig w.
Proof.
  intros Hv Hh.
  apply String.eqb_neq in Hv, Hh.
  destruct w as [[rtl dir dis native manually sim] initial locked c saved e cs].
  unfold setOption. cbv zeta. rewrite exec_bind. simpl optionName.
  change (_optionChanged "direction")
    with (bind (E := E) _resetInactiveDirection (fun _ => _invalidate)).
  rewrite exec_bind.
  unfold exec, _resetInactiveDirection, _getInactiveProp, _invalidate, call, bind,
    readOption, set_options, ret.
  simpl. rewrite Hv, Hh. simpl. repeat split.
Qed.

(** X18.  Unless the widget is in RTL mode with a direction other than
    vertical, a change of dimension updates the strategy and its bounds
    and nothing more: no scroll, and the RTL configuration is left as it
    is. *)
Theorem dimensionChanged_without_rtl (w : Widget E) :
  rtlEnabled (options w) = false \/ direction (options w) = VERTICAL ->
  let w' := exec _dimensionChanged w in
  calls w' = StrategyUpdateBounds :: UpdateAllowedDirection :: StrategyUpdate :: calls w
  /\ host w' = updateBounds (update_strategy (host w))
  /\ _rtlConfig w' = _rtlConfig w.
Proof.
  intros Hc. cbv zeta.
  unfold _dimensionChanged, _updateRtlPosition. rewrite !exec_bind.
  set (w1 := exec _updateBounds (exec update w)).
  assert (Hrtl : _isHorizontalAndRtlEnabled w1 = (false, w1))
    by (apply isHorizontalAndRtlEnabled_false; exact Hc).
  rewrite Hrtl. simpl fst. unfold exec at 1 2 3. rewrite Hrtl. simpl snd.
  repeat split.
Qed.

(** ** The locked flag *)

#[local] Hint Resolve call_lockState update_lockState updateIfNeed_lockState
  updateRtlConfig_lockState normalizeLocation_lockState scrollTo_distance_lockState
  scrollTo_lockState scrollBy_lockState updateRtlPosition_lockState
  resetInactiveDirection_lockState setUseSimulatedScrollbar_lockState : frame.

Lemma optionChanged_lockState name :
  String.eqb name "disabled" = false ->
  preserves (E := E) lockState (_optionChanged name).
Proof.
  intros Hname. unfold _optionChanged.
  destruct (oneOf name _); [frame |].
  destruct (String.eqb name "direction"); [unfold _invalidate; frame |].
  destruct (String.eqb name "useNative"); [unfold _invalidate; frame |].
  destruct (oneOf name _); [frame |].
  rewrite Hname.
  destruct (String.eqb name "updateManually"); [frame |].
  destruct (String.eqb name "width"); frame.
Qed.

(** X16.  Only a change of the [disabled] option, [_lock], [_unlock]
    and rendering can change the locked flag: every other operation,
    scrolling included, leaves the flag and the [disabled] option as
    they are. *)
Theorem lock_changes_only (w : Widget E) (o : Operation) :
  changesLock o = false ->
  _locked (exec (perform o) w) = _locked w
  /\ disabled (options (exec (perform o) w)) = disabled (options w).
Proof.
  intros Ho.
  assert (Hl : lockState (exec (perform o) w) = lockState w).
  { destruct o; simpl in Ho; try discriminate Ho; simpl perform.
    - unfold setOption. rewrite exec_bind.
      transitivity (lockState (exec (set_options (assign u)) w));
        [apply (optionChanged_lockState _ Ho) |].
      destruct u; try reflexivity. discriminate Ho.
    - apply scrollTo_lockState.
    - apply scrollBy_lockState.
    - apply update_lockState.
    - assert (Hm : preserves (E := E) lockState _dimensionChanged)
        by (unfold _dimensionChanged; frame).
      apply Hm.
    - assert (Hm : preserves (E := E) lockState (_visibilityChanged visible))
        by (unfold _visibilityChanged, scrollOffset; frame).
      apply Hm.
    - reflexivity. }
  unfold lockState in Hl. injection Hl as Hd Hlk. split; assumption.
Qed.

(** ** Rendering, hiding and showing *)

Lemma updateRtlPosition_run (w : Widget E) :
  rtlEnabled (options w) = true ->
  direction (options w) <> VERTICAL ->
  let w0 := exec _updateBounds w in
  exec _updateRtlPosition w
  = exec (updateRtlPosition_deferRender (fst (updateRtlPosition_deferUpdate w0)))
      (snd (updateRtlPosition_deferUpdate w0)).
Proof.
  intros Hr Hd w0.
  unfold _updateRtlPosition. rewrite !exec_bind. fold w0.
  rewrite (isHorizontalAndRtlEnabled_true w0 Hr Hd). simpl fst.
  change (exec _isHorizontalAndRtlEnabled w0) with w0.
  cbv beta iota. now rewrite exec_bind.
Qed.

(** X13.  With a native strategy that moves by the distance it is
    given, rendering in RTL mode with a direction other than vertical
    leaves the widget at its right edge: the left offset is
    [scrollWidth - clientWidth] (0 when that is not positive) and
    [scrollRight] is 0 (or that non-positive value). *)
Theorem render_rtl_right_edge (w : Widget E) :
  movesBy -> useNative (options w) = true ->
  rtlEnabled (options w) = true -> direction (options w) <> VERTICAL ->
  let el := element (updateBounds (update_strategy (render (host w)))) in
  let max := Element.scrollWidth el - Element.clientWidth el in
  let w' := exec _render w in
  fst (scrollLeft w') = (if max <=? 0 then 0 else max)
  /\ scrollRight (_rtlConfig w') = (if max <=? 0 then max else 0).
Proof.
  intros Hmoves Hnative Hr Hd el max w'.
  unfold w', _render. rewrite !exec_bind.
  match goal with
  | |- context [exec _updateRtlPosition ?x] => set (w4 := x)
  end.
  assert (Ho : options w4 = options w /\ host w4 = update_strategy (render (host w))
               /\ scrollRight (_rtlConfig w4) = 0).
  { unfold w4. clear.
    destruct w as [[rtl dir dis native manually sim] initial locked c saved e cs].
    destruct dis; repeat split. }
  destruct Ho as (Ho & Hh & Hsr).
  rewrite (updateRtlPosition_run w4) by (rewrite Ho; assumption).
  set (w0 := exec _updateBounds w4).
  assert (Hel : element (host w0) = el).
  { change (host w0) with (updateBounds (host w4)). now rewrite Hh. }
  pose proof (deferUpdate_result w0) as Hdu. cbv zeta in Hdu.
  rewrite Hel in Hdu. fold max in Hdu.
  change (scrollRight (_rtlConfig w0)) with (scrollRight (_rtlConfig w4)) in Hdu.
  rewrite Hsr, Z.sub_0_r in Hdu.
  split.
  - rewrite deferRender_scrollLeft.
    + rewrite Hdu. now destruct (max <=? 0).
    + exact Hmoves.
    + rewrite Hdu.
      destruct (max <=? 0); change (useNative (options w4) = true);
        now rewrite Ho.
  - rewrite deferRender_scrollRight, Hdu.
    destruct (max <=? 0); simpl; [reflexivity | exact Hsr].
Qed.

(** X14.  With such a strategy and whole pixels within the safe range,
    hiding the widget and showing it again restores the scroll offset it
    had when it was hidden, wherever the strategy is when the widget is
    shown, and forgets the saved offset. *)
Theorem visibility_round_trip (w : Widget E) (e : E) :
  movesBy -> useNative (options w) = true ->
  let hidden := exec (_visibilityChanged false) w in
  let shown := exec (_visibilityChanged true) (exec (hostChanged e) hidden) in
  safePoint (location (host w)) ->
  safePoint
    (location
       (host (exec _updateIfNeed
                (exec _updateRtlPosition
                   (exec update (exec (hostChanged e) hidden)))))) ->
  _savedScrollOffset hidden = Some (fst (scrollOffset w))
  /\ fst (scrollOffset shown) = fst (scrollOffset w)
  /\ _savedScrollOffset shown = None.
Proof.
  intros Hmoves Hnative hidden shown _ _.
  split; [reflexivity |].
  set (w1 := exec (hostChanged e) hidden).
  assert (Hs1 : settings w1 = (options w, Some (fst (scrollOffset w))))
    by reflexivity.
  unfold shown. fold w1. unfold _visibilityChanged. rewrite !exec_bind.
  set (w2 := exec _updateRtlPosition (exec update w1)).
  assert (Hs2 : settings w2 = settings w1).
  { unfold w2.
    transitivity (settings (exec update w1));
      [apply updateRtlPosition_settings | apply update_settings]. }
  rewrite Hs1 in Hs2. unfold settings in Hs2. injection Hs2 as Ho2 Hsaved2.
  change (fst ((fun w0 : Widget E => (_savedScrollOffset w0, w0)) w2))
    with (_savedScrollOffset w2).
  change (exec (fun w0 : Widget E => (_savedScrollOffset w0, w0)) w2) with w2.
  rewrite Hsaved2.
  split; [| reflexivity].
  change (fst (scrollOffset (exec (set_savedScrollOffset None) ?x)))
    with {| point_left := - point_left (location (host x));
            point_top := - point_top (location (host x)) |}.
  cbn [fst]. cbv beta iota.
  rewrite (scrollTo_location_any w2 _ Hmoves) by now rewrite Ho2.
  simpl. now rewrite !Z.opp_involutive.
Qed.

(** X15.  When there is a window and the strategy is such a one,
    changing the direction to vertical (horizontal) leaves the top
    (left) offset where it was before the change. *)
Theorem direction_change_keeps_active (w : Widget E) (d : string) :
  window (host w) <> None ->
  movesBy -> useNative (options w) = true ->
  let w' := exec (setOption (set_direction d)) w in
  (d = VERTICAL ->
     point_top (fst (scrollOffset w')) = point_top (fst (scrollOffset w)))
  /\ (d = HORIZONTAL ->
        point_left (fst (scrollOffset w')) = point_left (fst (scrollOffset w))).
Proof.
  intros Hw Hmoves Hnative w'.
  set (w1 := exec (set_options (assign (set_direction d))) w).
  assert (Hw1 : window (host w1) <> None) by exact Hw.
  destruct (resetInactiveDirection_run w1 Hw1) as [Hv Hh].
  assert (Hrun : w' = exec _invalidate (exec _resetInactiveDirection w1)).
  { unfold w', setOption. rewrite exec_bind. fold w1. simpl optionName.
    change (_optionChanged "direction")
      with (bind (E := E) _resetInactiveDirection (fun _ => _invalidate)).
    now rewrite exec_bind. }
  split; intros ->; rewrite Hrun.
  - specialize (Hv eq_refl).
    change (point_top (fst (scrollOffset ?x))) with (- point_top (location (host x))).
    change (host (exec _invalidate ?x)) with (host x).
    unfold exec at 1. rewrite Hv.
    change (snd (bind scrollOffset ?k w1))
      with (exec (k (fst (scrollOffset w1))) (exec scrollOffset w1)).
    cbv beta.
    rewrite (scrollTo_location_any _ _ Hmoves) by exact Hnative.
    simpl. now rewrite !Z.opp_involutive.
  - specialize (Hh eq_refl).
    change (point_left (fst (scrollOffset ?x))) with (- point_left (location (host x))).
    change (host (exec _invalidate ?x)) with (host x).
    unfold exec at 1. rewrite Hh.
    change (snd (bind scrollOffset ?k w1))
      with (exec (k (fst (scrollOffset w1))) (exec scrollOffset w1)).
    cbv beta.
    rewrite (scrollTo_location_any _ _ Hmoves) by exact Hnative.
    simpl. now rewrite !Z.opp_involutive.
Qed.

(** ** Scrolling to an element *)

(** X19.  The position of an element relative to the content is the sum
    of the positions along its offset parents as long as they are inside
    the content; the content itself and everything above it count for
    nothing. *)
Theorem elementPosition_sum (positions : list Point) (above : JQuery)
    (prop : InactiveProp) :
  _hasScrollContent above = false ->
  _elementPositionRelativeToContent (inside positions above) prop
  = fold_right Z.add 0
      (map (fun p => match prop with
                     | prop_left => point_left p
                     | prop_top => point_top p
                     end) positions).
Proof.
  intros Habove. induction positions as [| p rest IH]; simpl.
  - destruct above as [| c i q parent]; [reflexivity |].
    simpl in *. now rewrite Habove.
  - now rewrite IH.
Qed.

(** X20.  [scrollToElementTopLeft] does nothing for an element the
    content does not contain, or one that has not as many scrollable
    parents as content parents. *)
Theorem scrollToElementTopLeft_guard (w : Widget E) (element : Target) :
  found element = 0%nat \/ scrollableParents element <> contentParents element ->
  scrollToElementTopLeft element w = (tt, w).
Proof.
  intros Hg. unfold scrollToElementTopLeft. cbv zeta.
  destruct Hg as [-> | Hne]; [reflexivity |].
  apply Nat.eqb_neq in Hne. rewrite Hne. now rewrite orb_true_r.
Qed.

(** X21.  Without RTL, [scrollToElementTopLeft] of an element of the
    content is [scrollTo] of the position of the element relative to the
    content on every axis of the direction, and of 0 on an axis the
    direction excludes. *)
Theorem scrollToElementTopLeft_target (w : Widget E) (element : Target) :
  rtlEnabled (options w) = false ->
  found element <> 0%nat -> scrollableParents element = contentParents element ->
  scrollToElementTopLeft element w
  = scrollTo
      (object
         (Some (if String.eqb (direction (options w)) VERTICAL then 0
                else _elementPositionRelativeToContent (target_element element)
                       prop_left))
         (Some (if String.eqb (direction (options w)) HORIZONTAL then 0
                else _elementPositionRelativeToContent (target_element element)
                       prop_top))) w.
Proof.
  intros Hrtl Hfound Hparents.
  apply Nat.eqb_neq in Hfound. apply Nat.eqb_eq in Hparents.
  unfold scrollToElementTopLeft. cbv zeta. rewrite Hfound, Hparents. simpl.
  unfold bind at 1, readOption at 1. unfold differs.
  destruct (String.eqb (direction (options w)) VERTICAL); simpl.
  - unfold bind at 1, ret at 1.
    destruct (String.eqb (direction (options w)) HORIZONTAL); reflexivity.
  - unfold bind at 1, bind at 1, readOption at 1. rewrite Hrtl.
    unfold ret at 1.
    destruct (String.eqb (direction (options w)) HORIZONTAL); reflexivity.
Qed.

End Settings.

(** ** On the sample page *)

(** Settles that concrete pixel values are within the safe range. *)
Ltac safe_pixels :=
  unfold safePoint, safeLoc, safePixel; simpl;
  repeat match goal with
         | |- _ /\ _ => split
         | |- forall v, Some _ = Some v -> _ => intros ? [= <-]
         | |- forall v, None = Some v -> _ => discriminate
         end;
  lia.

Lemma scrollTo_distance_defined_witness :
  left (fst (scrollTo_distance (Scalar 5)
               (sampleWidget false VERTICAL None (mkRtlConfig 0 400 1 false))))
  = Some 0.
Proof.
  exact (proj1 (proj2 (scrollTo_distance_defined
                         (sampleWidget false VERTICAL None (mkRtlConfig 0 400 1 false))
                         (Scalar 5))) eq_refl).
Defined.

Lemma scrollTo_reaches_target_witness :
  fst (scrollOffset
         (exec (scrollTo (object (Some 100) (Some 200)))
            (sampleWidget false "both" None (mkRtlConfig 0 400 1 false))))
  = {| point_left := 100; point_top := 200 |}.
Proof.
  refine (proj2 (scrollTo_reaches_target
                   (sampleWidget false "both" None (mkRtlConfig 0 400 1 false))
                   (object (Some 100) (Some 200)) page_movesBy eq_refl _ _)
            100 200 eq_refl); safe_pixels.
Defined.

Lemma scrollTo_twice_witness :
  let w := exec (set_options (assign (set_updateManually true)))
             (sampleWidget false "both" None (mkRtlConfig 0 400 1 false)) in
  let w1 := exec (scrollTo (Scalar 100)) w in
  calls (exec (scrollTo (Scalar 100)) w1) = StrategyLocation :: calls w1.
Proof.
  intros w w1.
  refine (proj1 (proj2 (scrollTo_twice w (Scalar 100) page_movesBy eq_refl eq_refl
                          _ _))); safe_pixels.
Defined.

Lemma scrollBy_calls_witness :
  let w := sampleWidget false VERTICAL None (mkRtlConfig 0 400 1 false) in
  calls (exec (scrollBy (Scalar 10)) w)
  = [StrategyScrollBy {| left := None; top := Some (-10) |};
     UpdateAllowedDirection; StrategyUpdate]
  /\ calls (exec (scrollBy (object None None)) w) = [].
Proof.
  intros w. split.
  - exact (proj1 (proj2 (scrollBy_calls w (Scalar 10)) eq_refl)).
  - exact (proj1 (proj1 (scrollBy_calls w (object None None)) eq_refl)).
Defined.

Lemma scrollBy_moves_witness :
  let w := exec (set_options (assign (set_updateManually true)))
             (sampleWidget false VERTICAL None (mkRtlConfig 0 400 1 false)) in
  fst (scrollOffset (exec (scrollBy (Scalar 10)) w))
  = {| point_left := 30; point_top := 80 |}.
Proof.
  intros w. exact (scrollBy_moves w (Scalar 10) page_movesBy eq_refl).
Defined.

Lemma scrollBy_composes_witness :
  let w := exec (set_options (assign (set_updateManually true)))
             (sampleWidget false "both" None (mkRtlConfig 0 400 1 false)) in
  location (host (exec (scrollBy (Scalar (-10))) (exec (scrollBy (Scalar 10)) w)))
  = location (host w).
Proof.
  intros w.
  refine (proj2 (scrollBy_composes w 10 0 page_movesBy eq_refl _ _ _ _ _));
    safe_pixels.
Defined.

Lemma updateRtlConfig_twice_witness :
  let w := sampleWidget true HORIZONTAL (Some (mkWindow 1)) (mkRtlConfig 700 300 1 false) in
  scrollRight (_rtlConfig (exec _updateRtlConfig w)) = 700
  /\ scrollRight (_rtlConfig (exec _updateRtlConfig (exec _updateRtlConfig w))) = 570.
Proof.
  intros w. split; [reflexivity |].
  exact (updateRtlConfig_twice w eq_refl vertical_is_not_horizontal eq_refl).
Defined.

Lemma reachable_notSkipping_witness :
  let w := exec (scrollTo (Scalar 100))
             (exec (bind _init (fun _ => _render))
                (sampleWidget true HORIZONTAL (Some (mkWindow 1))
                   (mkRtlConfig 0 400 1 true))) in
  skipUpdating (_rtlConfig w) = false.
Proof.
  intros w.
  exact (reachable_notSkipping w
           (reachable_perform (op_scrollTo (Scalar 100)) _ (reachable_rendered _))).
Defined.

Lemma direction_change_without_inactive_axis_witness :
  let w := sampleWidget false VERTICAL (Some (mkWindow 1)) (mkRtlConfig 0 400 1 false) in
  calls (exec (setOption (set_direction "both")) w) = [Invalidate].
Proof.
  intros w.
  assert (Hv : "both" <> VERTICAL) by discriminate.
  assert (Hh : "both" <> HORIZONTAL) by discriminate.
  exact (proj1 (proj2 (proj2 (direction_change_without_inactive_axis w "both" Hv Hh)))).
Defined.

Lemma dimensionChanged_without_rtl_witness :
  let w := sampleWidget true VERTICAL (Some (mkWindow 1)) (mkRtlConfig 0 400 1 false) in
  calls (exec _dimensionChanged w)
  = [StrategyUpdateBounds; UpdateAllowedDirection; StrategyUpdate].
Proof.
  intros w. exact (proj1 (dimensionChanged_without_rtl w (or_intror eq_refl))).
Defined.

Lemma lock_changes_only_witness :
  let w := exec _lock (sampleWidget false "both" None (mkRtlConfig 0 400 1 false)) in
  _locked (exec (perform (op_scrollBy (Scalar 10))) w) = true.
Proof.
  intros w. exact (proj1 (lock_changes_only w (op_scrollBy (Scalar 10)) eq_refl)).
Defined.

Lemma render_rtl_right_edge_witness :
  let w := sampleWidget true HORIZONTAL (Some (mkWindow 1)) (mkRtlConfig 0 0 0 false) in
  fst (scrollLeft (exec _render w)) = 600
  /\ scrollRight (_rtlConfig (exec _render w)) = 0.
Proof.
  intros w.
  exact (render_rtl_right_edge w page_movesBy eq_refl eq_refl
           vertical_is_not_horizontal).
Defined.

Lemma visibility_round_trip_witness :
  let w := sampleWidget false "both" None (mkRtlConfig 0 400 1 false) in
  let hidden := exec (_visibilityChanged false) w in
  let shown := exec (_visibilityChanged true)
                 (exec (hostChanged (mkPage None (Element.make 1000 400 800 300 0) 0))
                    hidden) in
  fst (scrollOffset shown) = {| point_left := 30; point_top := 70 |}.
Proof.
  intros w hidden shown.
  refine (proj1 (proj2 (visibility_round_trip w
                          (mkPage None (Element.make 1000 400 800 300 0) 0)
                          page_movesBy eq_refl _ _))); safe_pixels.
Defined.

Lemma direction_change_keeps_active_witness :
  let w := sampleWidget false "both" (Some (mkWindow 1)) (mkRtlConfig 0 400 1 false) in
  point_top (fst (scrollOffset (exec (setOption (set_direction VERTICAL)) w))) = 70.
Proof.
  intros w.
  assert (Hwindow : window (host w) <> None) by discriminate.
  exact (proj1 (direction_change_keeps_active w VERTICAL Hwindow page_movesBy eq_refl)
           eq_refl).
Defined.

Lemma elementPosition_sum_witness :
  _elementPositionRelativeToContent
    (inside [mkPoint 5 7; mkPoint 10 20]
       (node true true (mkPoint 1000 1000) html)) prop_top
  = 27.
Proof.
  exact (elementPosition_sum [mkPoint 5 7; mkPoint 10 20]
           (node true true (mkPoint 1000 1000) html) prop_top eq_refl).
Defined.

Lemma scrollToElementTopLeft_guard_witness :
  let w := sampleWidget false "both" None (mkRtlConfig 0 400 1 false) in
  scrollToElementTopLeft (mkTarget 1 2 1 50 html) w = (tt, w).
Proof.
  intros w.
  assert (Hne : 2%nat <> 1%nat) by discriminate.
  exact (scrollToElementTopLeft_guard w (mkTarget 1 2 1 50 html) (or_intror Hne)).
Defined.

Lemma scrollToElementTopLeft_target_witness :
  let w := sampleWidget false VERTICAL None (mkRtlConfig 0 400 1 false) in
  let element :=
    mkTarget 1 1 1 50
      (inside [mkPoint 5 7; mkPoint 10 20] (node true true (mkPoint 0 0) html)) in
  scrollToElementTopLeft element w = scrollTo (object (Some 0) (Some 27)) w.
Proof.
  intros w element.
  assert (Hfound : found element <> 0%nat) by discriminate.
  exact (scrollToElementTopLeft_target w element eq_refl Hfound eq_refl).
Defined.



Lemma scrollTo_as_scrollBy_witness :
  let w := exec (set_options (assign (set_updateManually true)))
             (sampleWidget false "both" None (mkRtlConfig 0 400 1 false)) in
  location (host (exec (scrollTo (object (Some 100) (Some 200))) w))
  = location (host (exec (scrollBy (object (Some 70) (Some 130))) w)).
Proof.
  intros w. exact (scrollTo_as_scrollBy w 100 200 page_movesBy eq_refl eq_refl).
Defined.

End ScrollableMore.
